(** * Stoichiometric-matrix pipeline of costly_cross_feeding

    A shallow embedding of [scrape_data.py] (equation parser, direction
    splitting, matrix assembly) and of [load_data.py] (identifier maps,
    subset projection, derived matrices), followed by the properties of
    the pipeline.

    Conventions of the embedding:
    - a Python [str] is a [string]; a character stands for the code point
      of the same number (U+0000 .. U+00FF), and the character classes
      below are CPython's on that range;
    - a Python [int] is a [Z]; the cells of the data frame hold the
      parser's integers as they are (the 64-bit width of the cells is not
      modelled); the float arrays of [load_data.py] hold the entries as
      converted to [float64];
    - a Python [dict] is an association list in insertion order
      ([PyDict]); a Python [set] is a [gset];
    - a raised exception is the [Raise] branch of [result]. *)

From Stdlib Require Import ZArith String Ascii List Lia.
From stdpp Require Import base option list sorting strings gmap.

Local Open Scope Z_scope.

(** ** Exceptions *)

Inductive exn : Type :=
| ValueError
| KeyError.

Inductive result (A : Type) : Type :=
| Ok (a : A)
| Raise (e : exn).

Arguments Ok {A} a.
Arguments Raise {A} e.

Global Instance result_ret : MRet result := λ A a, Ok a.

Global Instance result_bind : MBind result := λ A B k r,
  match r with
  | Ok a => k a
  | Raise e => Raise e
  end.

Global Instance result_fmap : FMap result := λ A B f r,
  match r with
  | Ok a => Ok (f a)
  | Raise e => Raise e
  end.

(** ** Python string built-ins used by the parser *)

Module PyStr.

(** [str.isspace] on one character: the whitespace that [str.split()] and
    [str.strip()] remove.  U+0009..U+000D, U+001C..U+0020, U+0085, U+00A0. *)
Definition isspace (c : ascii) : bool :=
  let n := nat_of_ascii c in
  ((9 <=? n) && (n <=? 13) || (28 <=? n) && (n <=? 32)
   || (n =? 133) || (n =? 160))%nat.

(** ASCII decimal digit. *)
Definition isdecimal_char (c : ascii) : bool :=
  let n := nat_of_ascii c in ((48 <=? n) && (n <=? 57))%nat.

(** [str.isdigit] on one character: the decimal digits and the superscript
    digits U+00B2, U+00B3, U+00B9. *)
Definition isdigit_char (c : ascii) : bool :=
  let n := nat_of_ascii c in
  (isdecimal_char c || (n =? 178) || (n =? 179) || (n =? 185))%nat.

Fixpoint forallb_str (p : ascii → bool) (s : string) : bool :=
  match s with
  | EmptyString => true
  | String c s' => p c && forallb_str p s'
  end.

(** [s.isdigit()]: non-empty and every character is a digit. *)
Definition isdigit (s : string) : bool :=
  match s with
  | EmptyString => false
  | _ => forallb_str isdigit_char s
  end.

Definition isdecimal (s : string) : bool :=
  match s with
  | EmptyString => false
  | _ => forallb_str isdecimal_char s
  end.

(** Value of a string of decimal digits, most significant first. *)
Fixpoint decimal_value (acc : Z) (s : string) : Z :=
  match s with
  | EmptyString => acc
  | String c s' =>
      decimal_value (10 * acc + Z.of_nat (nat_of_ascii c - 48)) s'
  end.

(** CPython's default [sys.int_info.default_max_str_digits]. *)
Definition int_max_str_digits : nat := 4300.

(** [int(s)] for a token [s] made of digit characters, which is how the
    parser calls it (behind [s.isdigit()]): the decimal value when every
    character is an ASCII decimal digit and there are at most
    [int_max_str_digits] of them, [ValueError] otherwise. *)
Definition int (s : string) : result Z :=
  if isdecimal s && (String.length s <=? int_max_str_digits)%nat
  then Ok (decimal_value 0 s)
  else Raise ValueError.

(** [sub in s] *)
Fixpoint contains (sub s : string) : bool :=
  String.prefix sub s ||
  match s with
  | EmptyString => false
  | String _ s' => contains sub s'
  end.

(** [s.split(sep)] for a non-empty [sep]: scan left to right; at a match
    close the current piece and skip the separator.  [skip] counts the
    separator characters still to pass over, [cur] is the piece being
    read. *)
Fixpoint split_go (sep : string) (skip : nat) (cur : string) (s : string)
  : list string :=
  match s with
  | EmptyString => [cur]
  | String c s' =>
      match skip with
      | S k => split_go sep k cur s'
      | O =>
          if String.prefix sep s
          then cur :: split_go sep (String.length sep - 1) EmptyString s'
          else split_go sep 0 (cur +:+ String c EmptyString) s'
      end
  end.

Definition split (sep s : string) : list string := split_go sep 0 "" s.

(** [s.lstrip()], [s.rstrip()], [s.strip()] *)
Fixpoint lstrip (s : string) : string :=
  match s with
  | EmptyString => EmptyString
  | String c s' => if isspace c then lstrip s' else s
  end.

Fixpoint rstrip (s : string) : string :=
  match s with
  | EmptyString => EmptyString
  | String c s' =>
      match rstrip s' with
      | EmptyString => if isspace c then EmptyString else String c EmptyString
      | r => String c r
      end
  end.

Definition strip (s : string) : string := rstrip (lstrip s).

(** [s.split()]: the maximal runs of non-whitespace characters. *)
Fixpoint split_ws_go (cur : string) (s : string) : list string :=
  match s with
  | EmptyString => match cur with EmptyString => [] | _ => [cur] end
  | String c s' =>
      if isspace c
      then match cur with
           | EmptyString => split_ws_go "" s'
           | _ => cur :: split_ws_go "" s'
           end
      else split_ws_go (cur +:+ String c EmptyString) s'
  end.

Definition split_ws (s : string) : list string := split_ws_go "" s.

(** [s.startswith(("C", "G"))] *)
Definition startswith_C_or_G (s : string) : bool :=
  String.prefix "C" s || String.prefix "G" s.

End PyStr.

(** ** Python dictionaries

    Insertion-ordered: a new key goes to the end, an assignment to a key
    that is present keeps the key's place. *)

Module PyDict.
Section dict.
Context {K V : Type} `{EqDecision K}.

Definition dict : Type := list (K * V).

(** [d.get(k)] *)
Fixpoint get (d : dict) (k : K) : option V :=
  match d with
  | [] => None
  | (k', v) :: d' => if decide (k = k') then Some v else get d' k
  end.

(** [d.get(k, default)] *)
Definition get_default (d : dict) (k : K) (default : V) : V :=
  match get d k with
  | Some v => v
  | None => default
  end.

(** [d[k]] *)
Definition getitem (d : dict) (k : K) : result V :=
  match get d k with
  | Some v => Ok v
  | None => Raise KeyError
  end.

(** [k in d] *)
Definition contains (d : dict) (k : K) : bool :=
  match get d k with
  | Some _ => true
  | None => false
  end.

(** [d[k] = v] *)
Fixpoint set (d : dict) (k : K) (v : V) : dict :=
  match d with
  | [] => [(k, v)]
  | (k', v') :: d' =>
      if decide (k = k') then (k', v) :: d' else (k', v') :: set d' k v
  end.

(** [d.keys()], [d.values()], [d.items()] *)
Definition keys (d : dict) : list K := d.*1.
Definition values (d : dict) : list V := d.*2.
Definition items (d : dict) : list (K * V) := d.

(** [for k, v in pairs: d[k] = v] *)
Definition assign_all (d : dict) (pairs : list (K * V)) : dict :=
  fold_left (λ d kv, set d kv.1 kv.2) pairs d.

(** [dict(pairs)] and [{k: v for ...}]: assignments in order into an empty
    dictionary. *)
Definition of_pairs (pairs : list (K * V)) : dict := assign_all [] pairs.

End dict.
Global Arguments dict : clear implicits.
End PyDict.

(** ** scrape_data.py *)

(** [lhs, rhs = parts]: unpacking into two names. *)
Definition unpack2 (parts : list string) : result (string * string) :=
  match parts with
  | [lhs; rhs] => Ok (lhs, rhs)
  | _ => Raise ValueError
  end.

(** The coefficient of a term from its tokens:
    [int(parts[0]) if parts[0].isdigit() else 1]. *)
Definition term_coeff (part0 : string) : result Z :=
  if PyStr.isdigit part0 then PyStr.int part0 else Ok 1.

(** Body of the two [for term in ...] loops of [parse_equation]; [op] is
    [Z.sub] in the reactant loop and [Z.add] in the product loop. *)
Definition add_term (op : Z → Z → Z) (stoich : PyDict.dict string Z)
    (term : string) : result (PyDict.dict string Z) :=
  let parts := PyStr.split_ws (PyStr.strip term) in
  match parts with
  | [] => Ok stoich
  | part0 :: _ =>
      coeff ← term_coeff part0;
      let met := List.last parts part0 in
      if PyStr.startswith_C_or_G met
      then Ok (PyDict.set stoich met (op (PyDict.get_default stoich met 0) coeff))
      else Ok stoich
  end.

Fixpoint add_terms (op : Z → Z → Z) (stoich : PyDict.dict string Z)
    (terms : list string) : result (PyDict.dict string Z) :=
  match terms with
  | [] => Ok stoich
  | term :: terms' =>
      stoich' ← add_term op stoich term;
      add_terms op stoich' terms'
  end.

(** The final loop of [parse_equation]: the items with a non-zero
    coefficient, as two parallel lists. *)
Fixpoint nonzero_items (items : list (string * Z)) : list string * list Z :=
  match items with
  | [] => ([], [])
  | (met, coeff) :: items' =>
      let '(mets, coeffs) := nonzero_items items' in
      if decide (coeff ≠ 0) then (met :: mets, coeff :: coeffs)
      else (mets, coeffs)
  end.

(** [parse_equation] after the separator has been found: the reactant
    loop, the product loop and the final filter. *)
Definition parse_sides (lhs rhs : string) : result (list string * list Z) :=
  stoich ← add_terms Z.sub [] (PyStr.split " + " lhs);
  stoich ← add_terms Z.add stoich (PyStr.split " + " rhs);
  Ok (nonzero_items (PyDict.items stoich)).

Definition parse_equation (equation : string)
  : result (list string * list Z) :=
  if PyStr.contains "<=>" equation
  then '(lhs, rhs) ← unpack2 (PyStr.split " <=> " equation);
       parse_sides lhs rhs
  else if PyStr.contains "=>" equation
  then '(lhs, rhs) ← unpack2 (PyStr.split " => " equation);
       parse_sides lhs rhs
  else Ok ([], []).

(** State of the loop of [build_stoich_matrix]. *)
Record build_state : Type := BuildState {
  reaction_stoich : PyDict.dict string (PyDict.dict string Z);
  all_metabolites : gset string
}.

Definition initial_state : build_state :=
  {| reaction_stoich := []; all_metabolites := ∅ |}.

(** [{m: -c for m, c in zip(mets, coeffs)}] *)
Definition negated (mets : list string) (coeffs : list Z)
  : PyDict.dict string Z :=
  PyDict.of_pairs ((λ mc, (mc.1, - mc.2)) <$> zip mets coeffs).

(** One iteration of the loop over [reaction_ids], for an equation that
    was fetched: the forward record behind [if mets:], the reverse record
    behind [if "<=>" in eqn:]. *)
Definition split_directions (st : build_state) (rxn_id eqn : string)
  : result build_state :=
  '(mets, coeffs) ← parse_equation eqn;
  let st1 :=
    match mets with
    | [] => st
    | _ :: _ =>
        {| reaction_stoich :=
             PyDict.set (reaction_stoich st) (rxn_id +:+ "_f")
               (PyDict.of_pairs (zip mets coeffs));
           all_metabolites := all_metabolites st ∪ list_to_set mets |}
    end in
  let st2 :=
    if PyStr.contains "<=>" eqn
    then {| reaction_stoich :=
              PyDict.set (reaction_stoich st1) (rxn_id +:+ "_r")
                (negated mets coeffs);
            all_metabolites := all_metabolites st1 ∪ list_to_set mets |}
    else st1 in
  Ok st2.

(** The loop of [build_stoich_matrix].  [get_equations] is the remote
    lookup: [None] when nothing was fetched; [if not eqn: continue] also
    skips an empty equation. *)
Fixpoint process_reactions (get_equations : string → option string)
    (st : build_state) (reaction_ids : list string) : result build_state :=
  match reaction_ids with
  | [] => Ok st
  | rxn_id :: reaction_ids' =>
      match get_equations rxn_id with
      | None | Some EmptyString =>
          process_reactions get_equations st reaction_ids'
      | Some eqn =>
          st' ← split_directions st rxn_id eqn;
          process_reactions get_equations st' reaction_ids'
      end
  end.

(** A data frame of integers: row labels, column labels, rows of cells. *)
Record DataFrame : Type := mkDataFrame {
  index : list string;
  columns : list string;
  values : list (list Z)
}.

(** [pd.DataFrame(0, index=..., columns=...)] *)
Definition zero_frame (idx cols : list string) : DataFrame :=
  {| index := idx; columns := cols;
     values := replicate (length idx) (replicate (length cols) 0) |}.

(** Position of a label. *)
Fixpoint label_pos (labels : list string) (x : string) : option nat :=
  match labels with
  | [] => None
  | y :: labels' =>
      if decide (x = y) then Some 0%nat else S <$> label_pos labels' x
  end.

(** [df.loc[met, rxn] = coeff] for labels of the frame.  (For a label that
    is absent pandas would enlarge the frame; the assembler only writes
    labels it has put in the frame, see [fill_labels_present].)  The
    cells are integers without bound: the frame of the source has 64-bit
    cells, and what a write of a coefficient outside that range does is
    not modelled. *)
Definition loc_set (df : DataFrame) (met rxn : string) (coeff : Z)
  : DataFrame :=
  match label_pos (index df) met, label_pos (columns df) rxn with
  | Some i, Some j =>
      {| index := index df; columns := columns df;
         values := alter (λ row, <[j := coeff]> row) i (values df) |}
  | _, _ => df
  end.

(** The nested loop filling the frame. *)
Definition fill_record (df : DataFrame) (rxn : string)
    (stoich : PyDict.dict string Z) : DataFrame :=
  fold_left (λ df mc, loc_set df mc.1 rxn mc.2) (PyDict.items stoich) df.

Definition fill_frame (df : DataFrame)
    (records : PyDict.dict string (PyDict.dict string Z)) : DataFrame :=
  fold_left (λ df rs, fill_record df rs.1 rs.2) (PyDict.items records) df.

(** [sorted(s)] for a set of strings: ascending by code points. *)
Definition sorted (s : gset string) : list string :=
  merge_sort String.le (elements s).

Definition assemble (st : build_state) : DataFrame :=
  fill_frame
    (zero_frame (sorted (all_metabolites st)) (PyDict.keys (reaction_stoich st)))
    (reaction_stoich st).

Definition build_stoich_matrix (get_equations : string → option string)
    (reaction_ids : list string) : result DataFrame :=
  st ← process_reactions get_equations initial_state reaction_ids;
  Ok (assemble st).

(** ** More string built-ins, used by the fetching functions *)

Module PyText.

(** The line feed and the tab. *)
Definition nl : string := String "010" EmptyString.
Definition tab : string := String "009" EmptyString.

(** [s.replace(old, new)] for a non-empty [old]: scan left to right; at
    a match emit [new] and pass over the match.  [skip] counts the
    characters of the match still to pass over. *)
Fixpoint replace_go (old new : string) (skip : nat) (s : string) : string :=
  match s with
  | EmptyString => EmptyString
  | String c s' =>
      match skip with
      | S k => replace_go old new k s'
      | O =>
          if String.prefix old s
          then new +:+ replace_go old new (String.length old - 1) s'
          else String c (replace_go old new 0 s')
      end
  end.

Definition replace (old new s : string) : string := replace_go old new 0 s.

(** [s.endswith(suffix)] *)
Fixpoint endswith (suffix s : string) : bool :=
  String.eqb s suffix ||
  match s with
  | EmptyString => false
  | String _ s' => endswith suffix s'
  end.

(** [s[:-n]] for [n > 0] *)
Definition drop_last (n : nat) (s : string) : string :=
  String.substring 0 (String.length s - n) s.

End PyText.

(** ** scrape_data.py: the fetching functions

    The remote service is a parameter: [kegg_link] gives the text of a
    link query, [kegg_get] the text of an entry, or [None] when the
    request raises.  Where these functions subscript a list outside a
    [try], [None] stands for the [IndexError]. *)

(** [line.split("\t")[1].split(":")[1]] *)
Definition reaction_id_of_line (line : string) : option string :=
  field ← PyStr.split PyText.tab line !! 1%nat;
  PyStr.split ":" field !! 1%nat.

Definition get_reactions (kegg_link : string → string → string)
    (pathway_id : string) : option (list string) :=
  let response := kegg_link "reaction" ("path:" +:+ pathway_id) in
  let lines := PyStr.split PyText.nl (PyStr.strip response) in
  mapM reaction_id_of_line lines.

(** The loop of [get_equations] over the lines of an entry. *)
Fixpoint equation_line (lines : list string) : option string :=
  match lines with
  | [] => None
  | line :: lines' =>
      if String.prefix "EQUATION" line
      then Some (PyStr.strip (PyText.replace "EQUATION" "" line))
      else equation_line lines'
  end.

Definition get_equations (kegg_get : string → option string)
    (rxn_id : string) : option string :=
  match kegg_get rxn_id with
  | None => None
  | Some entry => equation_line (PyStr.split PyText.nl entry)
  end.

(** The [for ... else] of [get_cpd_names] over the lines of a record;
    [None] is an exception inside the [try]. *)
Fixpoint compound_name (lines : list string) : option string :=
  match lines with
  | [] => Some "Unknown"
  | line :: lines' =>
      if String.prefix "NAME" line
      then rest ← PyStr.split "NAME" line !! 1%nat;
           PyStr.split ";" (PyStr.strip rest) !! 0%nat
      else compound_name lines'
  end.

(** The body of the loop of [get_cpd_names]: the [try] and its
    [except]. *)
Definition cpd_name (kegg_get : string → option string) (kegg_id : string)
  : string :=
  match kegg_get kegg_id with
  | None => "Unknown"
  | Some record =>
      match compound_name (PyStr.split PyText.nl record) with
      | Some name => name
      | None => "Unknown"
      end
  end.

Definition get_cpd_names (kegg_get : string → option string)
    (met_ids : list string) : PyDict.dict string string :=
  fold_left (λ cpd_string_dict kegg_id,
               PyDict.set cpd_string_dict kegg_id (cpd_name kegg_get kegg_id))
    met_ids [].

(** [rxn_id[:-2] if rxn_id.endswith(('_f', '_r')) else rxn_id] *)
Definition base_id (rxn_id : string) : string :=
  if PyText.endswith "_f" rxn_id || PyText.endswith "_r" rxn_id
  then PyText.drop_last 2 rxn_id
  else rxn_id.

(** The loop of [get_rxn_names] over the lines of a record, up to the
    [if equation is None]; [None] is an exception inside the [try]. *)
Fixpoint record_equation (lines : list string) : option string :=
  match lines with
  | [] => Some "Unknown"
  | line :: lines' =>
      if String.prefix "EQUATION" line
      then PyStr.strip <$> PyStr.split "EQUATION" line !! 1%nat
      else record_equation lines'
  end.

(** What [get_rxn_names] stores in its cache for a base id. *)
Definition fetch_equation (kegg_get : string → option string) (base : string)
  : string :=
  match kegg_get base with
  | None => "Unknown"
  | Some record =>
      match record_equation (PyStr.split PyText.nl record) with
      | Some equation => equation
      | None => "Unknown"
      end
  end.

(** State of the loop of [get_rxn_names]; [fetched] lists the base ids
    for which [kegg_get] was called, in call order. *)
Record names_state : Type := NamesState {
  rxn_string_dict : PyDict.dict string string;
  base_eqn_cache : PyDict.dict string string;
  fetched : list string
}.

Definition names_step (kegg_get : string → option string) (st : names_state)
    (rxn_id : string) : result names_state :=
  let base := base_id rxn_id in
  let st1 :=
    if PyDict.contains (base_eqn_cache st) base then st
    else {| rxn_string_dict := rxn_string_dict st;
            base_eqn_cache :=
              PyDict.set (base_eqn_cache st) base (fetch_equation kegg_get base);
            fetched := fetched st ++ [base] |} in
  equation ← PyDict.getitem (base_eqn_cache st1) base;
  Ok {| rxn_string_dict := PyDict.set (rxn_string_dict st1) rxn_id equation;
        base_eqn_cache := base_eqn_cache st1;
        fetched := fetched st1 |}.

Fixpoint names_loop (kegg_get : string → option string) (st : names_state)
    (rxn_ids : list string) : result names_state :=
  match rxn_ids with
  | [] => Ok st
  | rxn_id :: rxn_ids' =>
      st' ← names_step kegg_get st rxn_id;
      names_loop kegg_get st' rxn_ids'
  end.

Definition get_rxn_names (kegg_get : string → option string)
    (rxn_ids : list string) : result (PyDict.dict string string) :=
  rxn_string_dict <$>
    names_loop kegg_get
      {| rxn_string_dict := []; base_eqn_cache := []; fetched := [] |} rxn_ids.

(** ** load_data.py *)

(** [enumerate(l)] *)
Definition enumerate {A : Type} (l : list A) : list (nat * A) := imap pair l.

(** [{id: idx for idx, id in enumerate(ids)}] *)
Definition index_map (ids : list string) : PyDict.dict string nat :=
  PyDict.of_pairs ((λ p, (p.2, p.1)) <$> enumerate ids).

(** [{idx: id for id, idx in m.items()}] *)
Definition invert_map (m : PyDict.dict string nat) : PyDict.dict nat string :=
  PyDict.of_pairs ((λ p, (p.2, p.1)) <$> PyDict.items m).

Definition met_map (metabolites : list string) : PyDict.dict string nat :=
  index_map metabolites.
Definition inv_met_map (metabolites : list string) : PyDict.dict nat string :=
  invert_map (met_map metabolites).
Definition rxn_map (reactions : list string) : PyDict.dict string nat :=
  index_map reactions.
Definition inv_rxn_map (reactions : list string) : PyDict.dict nat string :=
  invert_map (rxn_map reactions).

(** [[m[i] for i in ids if i in m]] *)
Fixpoint project (m : PyDict.dict string nat) (ids : list string)
  : result (list nat) :=
  match ids with
  | [] => Ok []
  | i :: ids' =>
      if PyDict.contains m i
      then idx ← PyDict.getitem m i;
           rest ← project m ids';
           Ok (idx :: rest)
      else project m ids'
  end.

Definition Currency (metabolites indices_of_currency_mets : list string)
  : result (list nat) :=
  project (met_map metabolites) indices_of_currency_mets.
Definition Energy (metabolites indices_of_energy_mets : list string)
  : result (list nat) :=
  project (met_map metabolites) indices_of_energy_mets.
Definition Core (metabolites indices_of_core_mets : list string)
  : result (list nat) :=
  project (met_map metabolites) indices_of_core_mets.

(** [list(m.values())] *)
Definition mets (metabolites : list string) : list nat :=
  PyDict.values (met_map metabolites).
Definition rxns (reactions : list string) : list nat :=
  PyDict.values (rxn_map reactions).

(** A 2-D array as the list of its rows. *)
Abbreviation matrix := (list (list Z)).

Definition cell (M : matrix) (i j : nat) : option Z :=
  row ← M !! i; row !! j.

(** The [float64] nearest to an integer, ties to the even significand:
    the conversion an [int64] entry undergoes when the array meets a
    float.  A float of 53 significant bits that holds an integer is
    represented by that integer. *)
Definition float64_of_int (x : Z) : Z :=
  let a := Z.abs x in
  if a <? 2 ^ 53 then x
  else
    let e := Z.log2 a - 52 in
    let q := a / 2 ^ e in
    let r := a mod 2 ^ e in
    let half := 2 ^ (e - 1) in
    let q' := if (half <? r) || ((r =? half) && Z.odd q) then q + 1 else q in
    Z.sgn x * (q' * 2 ^ e).

(** [M.clip(max=hi)] and [M.clip(min=lo)] on an integer array with a
    float bound ([0.0] in the source): the result is a float array, each
    entry converted and then clipped. *)
Definition clip_max (hi : Z) (M : matrix) : matrix :=
  (λ row : list Z, (λ x, Z.min hi (float64_of_int x)) <$> row) <$> M.
Definition clip_min (lo : Z) (M : matrix) : matrix :=
  (λ row : list Z, (λ x, Z.max lo (float64_of_int x)) <$> row) <$> M.

(** [(M != 0) * 1] *)
Definition nonzero_mask (M : matrix) : matrix :=
  (λ row : list Z, (λ x, (if decide (x ≠ 0) then 1 else 0) * 1) <$> row) <$> M.

(** [np.sum(M, axis=1)]: one sum per row. *)
Definition sum_axis1 (M : matrix) : list Z := (λ row, foldr Z.add 0 row) <$> M.

Definition rho (stoich_matrix : matrix) : matrix := clip_max 0 stoich_matrix.
Definition pi (stoich_matrix : matrix) : matrix := clip_min 0 stoich_matrix.
Definition rxnMat (stoich_matrix : matrix) : matrix :=
  nonzero_mask (rho stoich_matrix).
Definition prodMat (stoich_matrix : matrix) : matrix :=
  nonzero_mask (pi stoich_matrix).
Definition sumRxnVec (stoich_matrix : matrix) : list Z :=
  sum_axis1 (rxnMat stoich_matrix).
Definition sumProdVec (stoich_matrix : matrix) : list Z :=
  sum_axis1 (prodMat stoich_matrix).

(** ** Reference notions used to state the properties *)

(** Number of entries of column [j] that satisfy [p]. *)
Definition count_in_column (p : Z → bool) (M : matrix) (j : nat) : Z :=
  Z.of_nat (length (filter (λ row, from_option p false (row !! j) = true) M)).

(** Number of entries of a row that satisfy [p]. *)
Definition count_in_row (p : Z → bool) (row : list Z) : Z :=
  Z.of_nat (length (filter (λ x, p x = true) row)).

Definition negative (x : Z) : bool := x <? 0.
Definition positive (x : Z) : bool := 0 <? x.

(** A column of all zeros. *)
Definition zero_column (M : matrix) (j : nat) : Prop :=
  Forall (λ row, row !! j = Some 0) M.

(** An item with a non-zero coefficient. *)
Definition nonzero (mc : string * Z) : Prop := mc.2 ≠ 0.

Global Instance nonzero_dec (mc : string * Z) : Decision (nonzero mc) :=
  decide (mc.2 ≠ 0).

(** The whitespace tokens of a term. *)
Definition tokens (term : string) : list string := PyStr.split_ws term.

(** The coefficient a term carries: the integer value of its first token
    when that token is made of digits, 1 otherwise (also for a term without
    tokens, which the parser skips). *)
Definition term_coefficient (term : string) : result Z :=
  match tokens term with
  | [] => Ok 1
  | first :: _ => if PyStr.isdigit first then PyStr.int first else Ok 1
  end.

(** The metabolite a term names: its last token, kept only when it starts
    with [C] or [G]. *)
Definition term_metabolite (term : string) : option string :=
  match tokens term with
  | [] => None
  | first :: rest =>
      let met := List.last (first :: rest) first in
      if PyStr.startswith_C_or_G met then Some met else None
  end.

(** What one term contributes to metabolite [m]. *)
Definition occurrence (m : string) (term : string) : Z :=
  if decide (term_metabolite term = Some m)
  then match term_coefficient term with Ok c => c | Raise _ => 0 end
  else 0.

(** Total coefficient with which [m] occurs on one side of an equation. *)
Definition side_total (side : string) (m : string) : Z :=
  foldr Z.add 0 (occurrence m <$> PyStr.split " + " side).

(** The two sides of an equation: split at [" <=> "] when the equation
    contains ["<=>"], else at [" => "] when it contains ["=>"]. *)
Definition equation_sides (equation : string) : option (string * string) :=
  if PyStr.contains "<=>" equation
  then match PyStr.split " <=> " equation with
       | [lhs; rhs] => Some (lhs, rhs)
       | _ => None
       end
  else if PyStr.contains "=>" equation
  then match PyStr.split " => " equation with
       | [lhs; rhs] => Some (lhs, rhs)
       | _ => None
       end
  else None.

(** Every metabolite of every stored record has been added to the set of
    metabolites. *)
Definition records_covered (st : build_state) : Prop :=
  ∀ rxn stoich met coeff,
    (rxn, stoich) ∈ reaction_stoich st →
    (met, coeff) ∈ stoich →
    met ∈ all_metabolites st.

(** A small pathway: one ordinary reversible reaction and one whose
    equation cancels completely. *)
Definition two_reactions (rxn_id : string) : option string :=
  if decide (rxn_id = "R00001") then Some "C00001 + C00002 <=> C00003"
  else if decide (rxn_id = "R00002") then Some "C00001 <=> C00001"
  else None.

(** ** Further reference notions *)

(** The metabolites that the terms of a side keep, in term order. *)
Definition retained (side : string) : list string :=
  omap term_metabolite (PyStr.split " + " side).

(** A list without its repetitions, every element at its first place. *)
Definition first_seen (l : list string) : list string :=
  reverse (remove_dups (reverse l)).

(** A key list after one more key: unchanged when the key is there, the
    key at the end otherwise. *)
Definition add_key (ks : list string) (k : string) : list string :=
  if decide (k ∈ ks) then ks else ks ++ [k].

(** Net coefficient of [m]: right total minus left total. *)
Definition net (lhs rhs : string) (m : string) : Z :=
  side_total rhs m - side_total lhs m.

(** The coefficient of the term can be computed. *)
Definition converts (term : string) : Prop :=
  ∃ c, term_coefficient term = Ok c.

(** [df.at[met, rxn]]: the cell at a row label and a column label,
    [None] when a label is not in the frame. *)
Definition frame_at (df : DataFrame) (met rxn : string) : option Z :=
  i ← label_pos (index df) met;
  j ← label_pos (columns df) rxn;
  cell (values df) i j.

(** A frame has one row of cells per row label and one cell per column
    label in every row. *)
Definition well_shaped (df : DataFrame) : Prop :=
  length (values df) = length (index df) ∧
  Forall (λ row, length row = length (columns df)) (values df).

(** The coefficient of [met] in a parse, 0 when it is not listed. *)
Definition coefficient_in (mets : list string) (coeffs : list Z)
    (met : string) : Z :=
  PyDict.get_default (zip mets coeffs) met 0.

(** Every stored record lists each metabolite once. *)
Definition records_distinct (st : build_state) : Prop :=
  ∀ k stoich, (k, stoich) ∈ reaction_stoich st → NoDup stoich.*1.

(** The equation of a reaction was fetched, is not empty and parses. *)
Definition parsed (get_equations : string → option string)
    (rxn_id eqn : string) (mets : list string) (coeffs : list Z) : Prop :=
  get_equations rxn_id = Some eqn ∧ eqn ≠ "" ∧
  parse_equation eqn = Ok (mets, coeffs).

(** What the reactions of [done] have left in the state: their records,
    their metabolites, and nothing else. *)
Definition state_of (get_equations : string → option string)
    (done : list string) (st : build_state) : Prop :=
  (∀ rxn_id eqn mets coeffs,
     rxn_id ∈ done → parsed get_equations rxn_id eqn mets coeffs →
     (mets ≠ [] →
      PyDict.get (reaction_stoich st) (rxn_id +:+ "_f")
        = Some (zip mets coeffs)) ∧
     (PyStr.contains "<=>" eqn = true →
      PyDict.get (reaction_stoich st) (rxn_id +:+ "_r")
        = Some (zip mets (Z.opp <$> coeffs))) ∧
     (∀ m, m ∈ mets → m ∈ all_metabolites st)) ∧
  (∀ m, m ∈ all_metabolites st →
     ∃ rxn_id eqn mets coeffs,
       rxn_id ∈ done ∧ parsed get_equations rxn_id eqn mets coeffs ∧
       m ∈ mets) ∧
  (∀ k, k ∈ PyDict.keys (reaction_stoich st) →
     ∃ rxn_id eqn mets coeffs,
       rxn_id ∈ done ∧ parsed get_equations rxn_id eqn mets coeffs ∧
       ((k = rxn_id +:+ "_f" ∧ mets ≠ []) ∨
        (k = rxn_id +:+ "_r" ∧ PyStr.contains "<=>" eqn = true))).

(** The matrix assembled from [two_reactions]. *)
Definition two_reactions_frame : DataFrame :=
  {| index := ["C00001"; "C00002"; "C00003"];
     columns := ["R00001_f"; "R00001_r"; "R00002_r"];
     values := [[-1; 1; 0]; [-1; 1; 0]; [1; -1; 0]] |}.

Definition is_nonzero (x : Z) : bool := negb (x =? 0).

(** One line of a link response, and the response for a list of
    reaction identifiers: one line per identifier, each ended by a line
    feed. *)
Definition link_line (pathway_id rid : string) : string :=
  "path:" +:+ pathway_id +:+ PyText.tab +:+ "rn:" +:+ rid.

Definition link_response (pathway_id : string) (rids : list string) : string :=
  String.concat PyText.nl (link_line pathway_id <$> rids) +:+ PyText.nl.

(** An identifier without whitespace and without a colon. *)
Definition plain_id (rid : string) : Prop :=
  ∀ c, c ∈ list_ascii_of_string rid → PyStr.isspace c = false ∧ c ≠ ":"%char.

(** The string is not empty and its last character is not whitespace. *)
Definition ends_nonspace (s : string) : Prop :=
  ∃ t x, s = t +:+ String x "" ∧ PyStr.isspace x = false.

(** The state holds what one pass of the loop over reaction [rxn_id]
    with equation [eqn] writes: the forward record when the parse has a
    metabolite, the reverse record when the equation has ["<=>"], and
    the parsed metabolites. *)
Definition recorded (st : build_state) (rxn_id eqn : string) : Prop :=
  ∃ mets coeffs,
    parse_equation eqn = Ok (mets, coeffs) ∧
    list_to_set mets ⊆ all_metabolites st ∧
    (mets ≠ [] →
     PyDict.get (reaction_stoich st) (rxn_id +:+ "_f")
       = Some (PyDict.of_pairs (zip mets coeffs))) ∧
    (PyStr.contains "<=>" eqn = true →
     PyDict.get (reaction_stoich st) (rxn_id +:+ "_r")
       = Some (negated mets coeffs)).

(** * Properties *)

(** ** The string built-ins on sample inputs *)

Example split_reversible :
  PyStr.split " <=> " "C00001 + C00002 <=> C00003"
    = ["C00001 + C00002"; "C00003"].
Proof. reflexivity. Qed.

Example split_adjacent_separators :
  PyStr.split " <=> " "a <=>  <=> b" = ["a"; ""; "b"].
Proof. reflexivity. Qed.

Example split_trailing_separator : PyStr.split " + " "a + " = ["a"; ""].
Proof. reflexivity. Qed.

Example strip_split_term :
  PyStr.split_ws (PyStr.strip "  2   C00001 ") = ["2"; "C00001"].
Proof. reflexivity. Qed.

Example int_bound :
  PyStr.int "0042" = Ok 42 ∧ PyStr.int "" = Raise ValueError.
Proof. by vm_compute. Qed.

Example parse_irreversible :
  parse_equation "2 C00001 => C00004" = Ok (["C00001"; "C00004"], [-2; 1]).
Proof. reflexivity. Qed.

(** ** Derived matrices *)

Section derived.
Implicit Types (M : matrix) (row : list Z) (i j : nat).



(** The conversion keeps the sign. *)
Lemma float64_of_int_sign (x : Z) :
  (float64_of_int x < 0 ↔ x < 0) ∧ (0 < float64_of_int x ↔ 0 < x).
Proof.
  unfold float64_of_int.
  destruct (Z.ltb_spec (Z.abs x) (2 ^ 53)) as [|Hge]; [done|].
  set (a := Z.abs x) in *. set (e := Z.log2 a - 52).
  assert (53 ≤ Z.log2 a) as Hlog.
  { rewrite <- (Z.log2_pow2 53) by lia. by apply Z.log2_le_mono. }
  assert (0 < 2 ^ e) as Hpow by (apply Z.pow_pos_nonneg; lia).
  assert (2 ^ e ≤ a) as Hle.
  { transitivity (2 ^ Z.log2 a); [apply Z.pow_le_mono_r; lia|].
    apply Z.log2_spec. lia. }
  assert (0 < a / 2 ^ e) as Hq by (apply Z.div_str_pos; lia).
  set (q' := if _ : bool then a / 2 ^ e + 1 else a / 2 ^ e).
  assert (0 < q' * 2 ^ e) as Hpos.
  { apply Z.mul_pos_pos; [|done]. unfold q'. destruct (_ || _); lia. }
  destruct x; simpl Z.sgn; lia.
Qed.





Lemma sum_indicator (p : Z → bool) row :
  foldr Z.add 0 ((λ x, if p x then 1 else 0) <$> row) = count_in_row p row.
Proof.
  unfold count_in_row. induction row as [|x row IH]; [done|].
  rewrite fmap_cons, filter_cons. simpl foldr. rewrite IH.
  destruct (p x); case_decide; try done; rewrite ?length_cons; lia.
Qed.

(** What the code computes: [sumRxnVec] has one entry per row of the
    matrix (per metabolite), the number of negative entries of that row. *)
Lemma sumRxnVec_row M i row :
  M !! i = Some row → sumRxnVec M !! i = Some (count_in_row negative row).
Proof.
  intros Hi. unfold sumRxnVec, sum_axis1, rxnMat, nonzero_mask, rho, clip_max.
  rewrite !list_lookup_fmap, Hi. simpl. f_equal.
  rewrite <- sum_indicator. f_equal. rewrite <- list_fmap_compose.
  apply list_fmap_ext. intros _ x _. cbn [compose]. unfold negative.
  pose proof (float64_of_int_sign x).
  case_decide; destruct (Z.ltb_spec x 0); lia.
Qed.

Lemma sumProdVec_row M i row :
  M !! i = Some row → sumProdVec M !! i = Some (count_in_row positive row).
Proof.
  intros Hi. unfold sumProdVec, sum_axis1, prodMat, nonzero_mask, pi, clip_min.
  rewrite !list_lookup_fmap, Hi. simpl. f_equal.
  rewrite <- sum_indicator. f_equal. rewrite <- list_fmap_compose.
  apply list_fmap_ext. intros _ x _. cbn [compose]. unfold positive.
  pose proof (float64_of_int_sign x).
  case_decide; destruct (Z.ltb_spec 0 x); lia.
Qed.

Lemma length_sumRxnVec M : length (sumRxnVec M) = length M.
Proof.
  unfold sumRxnVec, sum_axis1, rxnMat, nonzero_mask, rho, clip_max.
  by rewrite !length_fmap.
Qed.

End derived.

(** C1 (the code departs from the claim).  On the matrix assembled from
    [C00001 + C00002 <=> C00003] (three metabolites, two directed
    reactions) [sumRxnVec] and [sumProdVec] have one entry per metabolite
    row, each counting along that row, where the claim has one entry per
    reaction column: column 0 has two negative entries and one positive
    entry, yet [sumRxnVec[0]] is 1 and both vectors have length 3. *)
Theorem degree_vectors_count_rows :
  let M : matrix := [[-1; 1]; [-1; 1]; [1; -1]] in
  (values <$> build_stoich_matrix two_reactions ["R00001"]) = Ok M ∧
  sumRxnVec M = [1; 1; 1] ∧
  sumProdVec M = [1; 1; 1] ∧
  count_in_column negative M 0 = 2 ∧
  count_in_column positive M 1 = 2 ∧
  sumRxnVec M !! 0%nat ≠ Some (count_in_column negative M 0) ∧
  sumProdVec M !! 1%nat ≠ Some (count_in_column positive M 1).
Proof. vm_compute. repeat split; congruence. Qed.




(** ** Parser: separators *)

Lemma parse_equation_reversible equation :
  PyStr.contains "<=>" equation = true →
  parse_equation equation =
    ('(lhs, rhs) ← unpack2 (PyStr.split " <=> " equation); parse_sides lhs rhs).
Proof. intros H. unfold parse_equation. by rewrite H. Qed.

Lemma parse_equation_irreversible equation :
  PyStr.contains "<=>" equation = false →
  PyStr.contains "=>" equation = true →
  parse_equation equation =
    ('(lhs, rhs) ← unpack2 (PyStr.split " => " equation); parse_sides lhs rhs).
Proof. intros H1 H2. unfold parse_equation. by rewrite H1, H2. Qed.

Lemma unpack2_raises (parts : list string) :
  length parts ≠ 2%nat → unpack2 parts = Raise ValueError.
Proof. by destruct parts as [|? [|? [|? ?]]]. Qed.

(** C6.  An equation that contains neither ["<=>"] nor ["=>"] parses to
    the empty pair of sequences, without an exception, and the matrix
    builder carries on with its state unchanged. *)
Theorem no_separator_empty (st : build_state) (rxn_id equation : string) :
  PyStr.contains "<=>" equation = false →
  PyStr.contains "=>" equation = false →
  parse_equation equation = Ok ([], []) ∧
  split_directions st rxn_id equation = Ok st.
Proof.
  intros H1 H2.
  assert (parse_equation equation = Ok ([], [])) as Hp.
  { unfold parse_equation. by rewrite H1, H2. }
  split; [done|]. unfold split_directions. rewrite Hp. simpl. by rewrite H1.
Qed.

Lemma no_separator_empty_witness :
  parse_equation "C00001 + C00002" = Ok ([], []) ∧
  split_directions initial_state "R00001" "C00001 + C00002" = Ok initial_state.
Proof.
  apply (no_separator_empty initial_state "R00001" "C00001 + C00002");
    reflexivity.
Defined.

(** C9.  The parser is partial on equations that contain a separator:
    ["C00001<=>C00002"] contains ["<=>"] but splitting at [" <=> "] gives
    one part, ["C00001 <=> C00002 <=> C00003"] gives three, and in both
    cases the unpacking raises [ValueError]; so does every equation with
    ["<=>"] whose split at [" <=> "] is not two parts, and every equation
    with only ["=>"] whose split at [" => "] is not two parts. *)
Theorem parser_raises_on_bad_separator :
  (PyStr.contains "<=>" "C00001<=>C00002" = true ∧
   PyStr.split " <=> " "C00001<=>C00002" = ["C00001<=>C00002"] ∧
   parse_equation "C00001<=>C00002" = Raise ValueError) ∧
  (PyStr.split " <=> " "C00001 <=> C00002 <=> C00003"
     = ["C00001"; "C00002"; "C00003"] ∧
   parse_equation "C00001 <=> C00002 <=> C00003" = Raise ValueError) ∧
  (∀ equation,
     PyStr.contains "<=>" equation = true →
     length (PyStr.split " <=> " equation) ≠ 2%nat →
     parse_equation equation = Raise ValueError) ∧
  (∀ equation,
     PyStr.contains "<=>" equation = false →
     PyStr.contains "=>" equation = true →
     length (PyStr.split " => " equation) ≠ 2%nat →
     parse_equation equation = Raise ValueError).
Proof.
  split; [by vm_compute|]. split; [by vm_compute|]. split.
  - intros equation H Hlen.
    rewrite parse_equation_reversible by done. by rewrite unpack2_raises.
  - intros equation H1 H2 Hlen.
    rewrite parse_equation_irreversible by done. by rewrite unpack2_raises.
Qed.

Lemma parser_raises_on_bad_separator_witness :
  parse_equation "C00001<=>C00002" = Raise ValueError ∧
  parse_equation "C00001=>C00002" = Raise ValueError.
Proof.
  split.
  - apply (proj1 (proj2 (proj2 parser_raises_on_bad_separator))).
    + reflexivity.
    + vm_compute. lia.
  - apply (proj2 (proj2 (proj2 parser_raises_on_bad_separator))).
    + reflexivity.
    + reflexivity.
    + vm_compute. lia.
Defined.

(** ** Matrix assembly on a degenerate reversible equation *)

(** A reversible equation that parses to no metabolites still gets its
    reverse record, an empty one. *)
Lemma degenerate_reversible_writes_reverse st rxn_id eqn :
  PyStr.contains "<=>" eqn = true →
  parse_equation eqn = Ok ([], []) →
  split_directions st rxn_id eqn =
    Ok {| reaction_stoich := PyDict.set (reaction_stoich st) (rxn_id +:+ "_r") [];
          all_metabolites := all_metabolites st ∪ ∅ |}.
Proof. intros Hrev Hp. unfold split_directions. by rewrite Hp, Hrev. Qed.

(** C2 (the code departs from the claim).  For the pathway
    [two_reactions] the equation of [R00002], ["C00001 <=> C00001"],
    parses to no metabolites; the forward record is skipped but the
    reverse record is still written, so the assembled matrix has a column
    [R00002_r] and every entry of that column is 0. *)
Theorem degenerate_reverse_column :
  parse_equation "C00001 <=> C00001" = Ok ([], []) ∧
  ∃ df,
    build_stoich_matrix two_reactions ["R00001"; "R00002"] = Ok df ∧
    index df = ["C00001"; "C00002"; "C00003"] ∧
    columns df = ["R00001_f"; "R00001_r"; "R00002_r"] ∧
    values df = [[-1; 1; 0]; [-1; 1; 0]; [1; -1; 0]] ∧
    zero_column (values df) 2.
Proof.
  split; [by vm_compute|].
  eexists. split; [by vm_compute|]. simpl.
  repeat split. unfold zero_column. by repeat constructor.
Qed.

(** ** Dictionaries *)

Section dict_facts.
Context {K V : Type} `{EqDecision K}.
Implicit Types (d : PyDict.dict K V) (k : K) (v : V) (pairs : list (K * V)).

Lemma dict_get_elem_of d k v : PyDict.get d k = Some v → (k, v) ∈ d.
Proof.
  induction d as [|[k' v'] d IH]; simpl; [done|].
  case_decide; intros ?; simplify_eq; [left | right; auto].
Qed.

Lemma dict_get_is_Some d k : is_Some (PyDict.get d k) ↔ k ∈ d.*1.
Proof.
  induction d as [|[k' v'] d IH]; simpl.
  - split; [by intros [? ?] | by intros ?%elem_of_nil].
  - rewrite elem_of_cons. case_decide.
    + split; [by left | by eexists].
    + rewrite IH. tauto.
Qed.

Lemma dict_get_None d k : PyDict.get d k = None ↔ k ∉ d.*1.
Proof. rewrite <- dict_get_is_Some, eq_None_not_Some. done. Qed.

Lemma dict_get_set_eq d k v : PyDict.get (PyDict.set d k v) k = Some v.
Proof.
  induction d as [|[k' v'] d IH]; simpl.
  - by rewrite decide_True.
  - destruct (decide (k = k')) as [->|Hne]; simpl.
    + by rewrite decide_True.
    + by rewrite decide_False.
Qed.

Lemma dict_get_set_ne d k k' v :
  k ≠ k' → PyDict.get (PyDict.set d k v) k' = PyDict.get d k'.
Proof.
  intros Hne. induction d as [|[k0 v0] d IH]; simpl.
  - by rewrite decide_False.
  - destruct (decide (k = k0)) as [->|?]; simpl.
    + by rewrite !decide_False.
    + case_decide; [done | apply IH].
Qed.

Lemma dict_get_set d k k' v :
  PyDict.get (PyDict.set d k v) k' =
    if decide (k = k') then Some v else PyDict.get d k'.
Proof.
  case_decide; [subst; apply dict_get_set_eq | by apply dict_get_set_ne].
Qed.

(** An assignment keeps the keys in place and appends a new key. *)
Lemma dict_set_fst d k v :
  (PyDict.set d k v).*1 =
    match PyDict.get d k with Some _ => d.*1 | None => d.*1 ++ [k] end.
Proof.
  induction d as [|[k0 v0] d IH]; csimpl; [done|].
  destruct (decide (k = k0)) as [->|?]; csimpl; [done|].
  rewrite IH. by destruct (PyDict.get d k).
Qed.

Lemma dict_keys_set d k v :
  PyDict.keys (PyDict.set d k v) =
    if PyDict.contains d k then PyDict.keys d else PyDict.keys d ++ [k].
Proof.
  unfold PyDict.keys, PyDict.contains. rewrite dict_set_fst.
  by destruct (PyDict.get d k).
Qed.

Lemma dict_set_elem_of d k v k' v' :
  (k', v') ∈ PyDict.set d k v → (k', v') ∈ d ∨ (k', v') = (k, v).
Proof.
  induction d as [|[k0 v0] d IH]; simpl.
  - intros ?%list_elem_of_singleton. by right.
  - case_decide; subst; rewrite !elem_of_cons; intuition.
Qed.

Lemma dict_set_keys_elem_of d k v k' :
  k' ∈ (PyDict.set d k v).*1 ↔ k' = k ∨ k' ∈ d.*1.
Proof.
  rewrite <- !dict_get_is_Some, dict_get_set.
  case_decide; subst; [split; [by left | by eexists] | intuition congruence].
Qed.

Lemma dict_set_NoDup d k v : NoDup d.*1 → NoDup (PyDict.set d k v).*1.
Proof.
  intros Hd. rewrite dict_set_fst.
  destruct (PyDict.get d k) eqn:Hg; [done|].
  apply NoDup_app. split_and!; [done | | apply NoDup_singleton].
  intros x Hx ->%list_elem_of_singleton. by apply dict_get_None in Hg.
Qed.

(** With distinct keys, membership of an item is a successful lookup. *)
Lemma dict_elem_of_get d k v : NoDup d.*1 → (k, v) ∈ d → PyDict.get d k = Some v.
Proof.
  induction d as [|[k0 v0] d IH]; simpl; [by intros _ ?%elem_of_nil|].
  rewrite NoDup_cons, elem_of_cons. intros [Hk0 Hd] [?|Hin]; simplify_eq.
  - by rewrite decide_True.
  - rewrite decide_False; [auto|].
    intros ->. apply Hk0. apply list_elem_of_fmap. by exists (k0, v).
Qed.

Lemma assign_all_elem_of pairs d k v :
  (k, v) ∈ PyDict.assign_all d pairs → (k, v) ∈ d ∨ (k, v) ∈ pairs.
Proof.
  revert d. induction pairs as [|[k0 v0] pairs IH]; intros d; simpl; [auto|].
  intros [[?|?]%dict_set_elem_of|?]%IH; rewrite ?elem_of_cons; auto.
Qed.

Lemma assign_all_keys pairs d k :
  k ∈ (PyDict.assign_all d pairs).*1 ↔ k ∈ d.*1 ∨ k ∈ pairs.*1.
Proof.
  revert d. induction pairs as [|[k0 v0] pairs IH]; intros d; simpl.
  - rewrite elem_of_nil. tauto.
  - rewrite IH, dict_set_keys_elem_of, elem_of_cons. tauto.
Qed.

Lemma assign_all_NoDup pairs d : NoDup d.*1 → NoDup (PyDict.assign_all d pairs).*1.
Proof.
  revert d. induction pairs as [|[k0 v0] pairs IH]; intros d; simpl; [done|].
  intros ?. by apply IH, dict_set_NoDup.
Qed.

Lemma of_pairs_elem_of pairs k v :
  (k, v) ∈ PyDict.of_pairs pairs → (k, v) ∈ pairs.
Proof. intros [?%elem_of_nil|?]%assign_all_elem_of; done. Qed.

Lemma of_pairs_keys pairs k : k ∈ (PyDict.of_pairs pairs).*1 ↔ k ∈ pairs.*1.
Proof.
  unfold PyDict.of_pairs. rewrite (assign_all_keys pairs []). simpl.
  rewrite elem_of_nil. tauto.
Qed.

Lemma of_pairs_NoDup pairs : NoDup (PyDict.of_pairs pairs).*1.
Proof. apply (assign_all_NoDup pairs []). constructor. Qed.

(** Pairs with distinct keys are their own dictionary. *)
Lemma assign_all_fresh pairs d :
  NoDup (d.*1 ++ pairs.*1) → PyDict.assign_all d pairs = d ++ pairs.
Proof.
  revert d. induction pairs as [|[k0 v0] pairs IH]; intros d Hnd; simpl.
  - by rewrite app_nil_r.
  - assert (PyDict.set d k0 v0 = d ++ [(k0, v0)]) as ->.
    { apply NoDup_app in Hnd as (_ & Hdis & _).
      assert (k0 ∉ d.*1) as Hk0 by (intros ?; eapply Hdis; [done | left]).
      clear -Hk0. induction d as [|[k1 v1] d IH]; simpl; [done|].
      rewrite fmap_cons, not_elem_of_cons in Hk0. destruct Hk0.
      rewrite decide_False by done. f_equal. auto. }
    rewrite IH; [by rewrite <- app_assoc|].
    rewrite fmap_app. simpl in *. by rewrite <- app_assoc.
Qed.

Lemma of_pairs_NoDup_id pairs : NoDup pairs.*1 → PyDict.of_pairs pairs = pairs.
Proof. intros ?. by apply (assign_all_fresh pairs []). Qed.

End dict_facts.

(** ** Identifier maps *)

Section maps.
Implicit Types (ids : list string) (id : string) (idx : nat).

Lemma elem_of_enumerate {A : Type} (l : list A) (i : nat) (x : A) :
  (i, x) ∈ enumerate l ↔ l !! i = Some x.
Proof.
  unfold enumerate. rewrite elem_of_lookup_imap. split.
  - by intros (j & y & [= -> ->] & ?).
  - intros ?. by exists i, x.
Qed.

Lemma index_map_elem_of ids id idx :
  (id, idx) ∈ index_map ids → ids !! idx = Some id.
Proof.
  intros Hin%of_pairs_elem_of.
  apply list_elem_of_fmap in Hin as ([i x] & [= -> ->] & Hin).
  by apply elem_of_enumerate.
Qed.

Lemma index_map_get ids id idx :
  PyDict.get (index_map ids) id = Some idx → ids !! idx = Some id.
Proof. intros ?%dict_get_elem_of. by apply index_map_elem_of. Qed.

Lemma index_map_contains ids id :
  PyDict.contains (index_map ids) id = true ↔ id ∈ ids.
Proof.
  unfold PyDict.contains.
  transitivity (is_Some (PyDict.get (index_map ids) id)).
  { rewrite is_Some_alt. destruct (PyDict.get (index_map ids) id); naive_solver. }
  unfold index_map. rewrite dict_get_is_Some, of_pairs_keys.
  rewrite <- list_fmap_compose, list_elem_of_fmap. split.
  - intros ([i x] & -> & Hin). apply elem_of_enumerate in Hin.
    by eapply list_elem_of_lookup_2.
  - intros (i & Hi)%list_elem_of_lookup_1.
    exists (i, id). split; [done|]. by apply elem_of_enumerate.
Qed.

Lemma index_map_is_Some ids id :
  id ∈ ids → ∃ idx, PyDict.get (index_map ids) id = Some idx.
Proof.
  intros Hin%index_map_contains. unfold PyDict.contains in Hin.
  destruct (PyDict.get (index_map ids) id); [by eexists | done].
Qed.

Lemma invert_map_get ids id idx :
  PyDict.get (index_map ids) id = Some idx →
  PyDict.get (invert_map (index_map ids)) idx = Some id.
Proof.
  intros Hget.
  assert (is_Some (PyDict.get (invert_map (index_map ids)) idx))
    as [id' Hinv].
  { unfold invert_map. rewrite dict_get_is_Some, of_pairs_keys.
    rewrite <- list_fmap_compose, list_elem_of_fmap.
    exists (id, idx). split; [done|]. by apply dict_get_elem_of. }
  rewrite Hinv. f_equal.
  apply dict_get_elem_of, of_pairs_elem_of, list_elem_of_fmap in Hinv
    as ([id0 idx0] & [= -> ->] & Hin).
  apply index_map_elem_of in Hin. apply index_map_get in Hget. congruence.
Qed.

Lemma invert_map_get_inv ids id idx :
  PyDict.get (invert_map (index_map ids)) idx = Some id →
  ids !! idx = Some id.
Proof.
  intros Hinv.
  apply dict_get_elem_of, of_pairs_elem_of, list_elem_of_fmap in Hinv
    as ([id0 idx0] & [= -> ->] & Hin).
  by apply index_map_elem_of.
Qed.

Lemma index_map_NoDup_get ids id idx :
  NoDup ids → ids !! idx = Some id → PyDict.get (index_map ids) id = Some idx.
Proof.
  intros Hnd Hi.
  destruct (index_map_is_Some ids id) as [idx' Hget].
  { by eapply list_elem_of_lookup_2. }
  rewrite Hget. f_equal. apply index_map_get in Hget.
  by eapply NoDup_lookup.
Qed.

(** Round trip through a map and its inverse, as the dictionary
    subscripts of the source. *)
Lemma round_trip ids id :
  id ∈ ids →
  (idx ← PyDict.getitem (index_map ids) id;
   PyDict.getitem (invert_map (index_map ids)) idx) = Ok id.
Proof.
  intros [idx Hget]%index_map_is_Some.
  unfold PyDict.getitem. rewrite Hget. simpl.
  by rewrite (invert_map_get _ _ _ Hget).
Qed.

(** The subset projection never reaches a failing subscript. *)
Lemma project_omap (m : PyDict.dict string nat) ids :
  project m ids = Ok (omap (PyDict.get m) ids).
Proof.
  induction ids as [|i ids IH]; simpl; [done|].
  unfold PyDict.contains, PyDict.getitem.
  destruct (PyDict.get m i) as [idx|]; simpl; by rewrite IH.
Qed.

Lemma omap_get_present ids' ids :
  Forall2 (λ id idx, PyDict.get (index_map ids) id = Some idx)
    (filter (λ id, id ∈ ids) ids') (omap (PyDict.get (index_map ids)) ids').
Proof.
  induction ids' as [|i ids' IH]; simpl; [constructor|].
  rewrite filter_cons. case_decide as Hin.
  - destruct (index_map_is_Some _ _ Hin) as [idx Hget]. rewrite Hget.
    by constructor.
  - destruct (PyDict.get (index_map ids) i) eqn:Hget; [|done].
    exfalso. apply Hin, index_map_contains. unfold PyDict.contains.
    by rewrite Hget.
Qed.

End maps.

(** C7.  Subset projection: for every list of identifiers the three
    projections return, without an exception, the indices of exactly the
    identifiers that are rows of the matrix, in the order of the input
    list; when one identifier of the list is absent and the others are
    present, the result is shorter than the list by exactly one. *)
Theorem projection_tolerant (metabolites ids : list string) :
  ∃ idxs : list nat,
    Currency metabolites ids = Ok idxs ∧
    Energy metabolites ids = Ok idxs ∧
    Core metabolites ids = Ok idxs ∧
    Forall2 (λ id idx, PyDict.get (met_map metabolites) id = Some idx)
      (filter (λ id, id ∈ metabolites) ids) idxs ∧
    (∀ pre x post,
       ids = pre ++ x :: post →
       x ∉ metabolites →
       Forall (λ id, id ∈ metabolites) (pre ++ post) →
       (length idxs + 1 = length ids)%nat).
Proof.
  exists (omap (PyDict.get (met_map metabolites)) ids).
  unfold Currency, Energy, Core. rewrite project_omap.
  split_and!; try done; [apply omap_get_present|].
  intros pre x post -> Hx Hall.
  pose proof (omap_get_present (pre ++ x :: post) metabolites) as Hlen.
  apply Forall2_length in Hlen. unfold met_map. rewrite <- Hlen.
  rewrite filter_app, filter_cons, decide_False by done.
  rewrite <- filter_app, !length_app, length_cons.
  assert (filter (λ id, id ∈ metabolites) (pre ++ post) = pre ++ post) as ->.
  { clear -Hall. induction Hall as [|y l Hy _ IH]; [done|].
    by rewrite filter_cons, decide_True, IH. }
  rewrite length_app. lia.
Qed.

Lemma projection_tolerant_witness :
  ∃ idxs : list nat,
    Currency ["C00001"; "C00002"; "C00003"] ["C00003"; "C99999"; "C00001"]
      = Ok idxs ∧
    (length idxs + 1 = 3)%nat.
Proof.
  destruct (projection_tolerant ["C00001"; "C00002"; "C00003"]
              ["C00003"; "C99999"; "C00001"]) as (idxs & Hc & _ & _ & _ & Hlen).
  exists idxs. split; [exact Hc|].
  apply (Hlen ["C00003"] "C99999" ["C00001"]).
  - reflexivity.
  - apply (bool_decide_unpack _). by vm_compute.
  - apply (bool_decide_unpack _). by vm_compute.
Defined.

(** ** Labels of the assembled matrix *)

Lemma loc_set_labels df met rxn coeff :
  index (loc_set df met rxn coeff) = index df ∧
  columns (loc_set df met rxn coeff) = columns df.
Proof.
  unfold loc_set.
  by destruct (label_pos (index df) met), (label_pos (columns df) rxn).
Qed.

Lemma fill_record_labels stoich df rxn :
  index (fill_record df rxn stoich) = index df ∧
  columns (fill_record df rxn stoich) = columns df.
Proof.
  unfold fill_record, PyDict.items. revert df.
  induction stoich as [|[met coeff] stoich IH]; intros df; simpl; [done|].
  destruct (IH (loc_set df met rxn coeff)) as [-> ->]. apply loc_set_labels.
Qed.

Lemma fill_frame_labels records df :
  index (fill_frame df records) = index df ∧
  columns (fill_frame df records) = columns df.
Proof.
  unfold fill_frame, PyDict.items. revert df.
  induction records as [|[rxn stoich] records IH]; intros df; simpl; [done|].
  destruct (IH (fill_record df rxn stoich)) as [-> ->].
  apply fill_record_labels.
Qed.

Lemma sorted_NoDup (s : gset string) : NoDup (sorted s).
Proof.
  unfold sorted. rewrite merge_sort_Permutation. apply NoDup_elements.
Qed.

Lemma elem_of_sorted (s : gset string) (x : string) : x ∈ sorted s ↔ x ∈ s.
Proof.
  unfold sorted. by rewrite merge_sort_Permutation, elem_of_elements.
Qed.

Lemma split_directions_NoDup st st' rxn_id eqn :
  NoDup (PyDict.keys (reaction_stoich st)) →
  split_directions st rxn_id eqn = Ok st' →
  NoDup (PyDict.keys (reaction_stoich st')).
Proof.
  unfold split_directions, PyDict.keys. intros Hnd.
  destruct (parse_equation eqn) as [[ms cs]|]; simpl; [|done].
  intros [= <-].
  destruct (PyStr.contains "<=>" eqn), ms; simpl;
    repeat apply dict_set_NoDup; done.
Qed.

Lemma process_reactions_NoDup get_equations reaction_ids st st' :
  NoDup (PyDict.keys (reaction_stoich st)) →
  process_reactions get_equations st reaction_ids = Ok st' →
  NoDup (PyDict.keys (reaction_stoich st')).
Proof.
  revert st. induction reaction_ids as [|rxn_id ids IH]; intros st Hnd; simpl.
  - by intros [= <-].
  - destruct (get_equations rxn_id) as [[|c eqn]|]; try by apply IH.
    destruct (split_directions st rxn_id (String c eqn)) as [st1|] eqn:Hs;
      simpl; [|done].
    apply IH. by eapply split_directions_NoDup.
Qed.

Lemma assembled_labels_NoDup get_equations reaction_ids df :
  build_stoich_matrix get_equations reaction_ids = Ok df →
  NoDup (index df) ∧ NoDup (columns df).
Proof.
  unfold build_stoich_matrix.
  destruct (process_reactions get_equations initial_state reaction_ids)
    as [st|] eqn:Hp; simpl; [|done].
  intros [= <-]. unfold assemble.
  destruct (fill_frame_labels (reaction_stoich st)
    (zero_frame (sorted (all_metabolites st)) (PyDict.keys (reaction_stoich st))))
    as [-> ->].
  simpl. split; [apply sorted_NoDup|].
  eapply process_reactions_NoDup; [|done]. constructor.
Qed.

Lemma label_pos_is_Some (labels : list string) (x : string) :
  x ∈ labels → is_Some (label_pos labels x).
Proof.
  induction labels as [|y labels IH]; simpl; [by intros ?%elem_of_nil|].
  case_decide; [by eexists|].
  intros [?|Hin]%elem_of_cons; [done|].
  destruct (IH Hin) as [i ->]. by eexists.
Qed.

Lemma add_record_covered st k (record : PyDict.dict string Z) (ms : list string) :
  records_covered st →
  (∀ met coeff, (met, coeff) ∈ record → met ∈ ms) →
  records_covered
    {| reaction_stoich := PyDict.set (reaction_stoich st) k record;
       all_metabolites := all_metabolites st ∪ list_to_set ms |}.
Proof.
  intros Hst Hrec rxn stoich met coeff. simpl.
  intros [Hin|[= -> ->]]%dict_set_elem_of Hmet.
  - apply elem_of_union_l. by eapply Hst.
  - apply elem_of_union_r, elem_of_list_to_set. by eapply Hrec.
Qed.

Lemma split_directions_covered st st' rxn_id eqn :
  records_covered st →
  split_directions st rxn_id eqn = Ok st' →
  records_covered st'.
Proof.
  unfold split_directions. intros Hst.
  destruct (parse_equation eqn) as [[ms cs]|]; simpl; [|done].
  intros [= <-].
  assert (∀ met coeff, (met, coeff) ∈ PyDict.of_pairs (zip ms cs) → met ∈ ms)
    as Hfwd.
  { intros met coeff Hin%of_pairs_elem_of. by eapply elem_of_zip_l. }
  assert (∀ met coeff, (met, coeff) ∈ negated ms cs → met ∈ ms) as Hrev.
  { intros met coeff Hin%of_pairs_elem_of.
    apply list_elem_of_fmap in Hin as ([m c] & [= -> ->] & Hin).
    by eapply elem_of_zip_l. }
  destruct (PyStr.contains "<=>" eqn), ms;
    repeat (apply add_record_covered; try done); by destruct st.
Qed.

Lemma process_reactions_covered get_equations reaction_ids st st' :
  records_covered st →
  process_reactions get_equations st reaction_ids = Ok st' →
  records_covered st'.
Proof.
  revert st. induction reaction_ids as [|rxn_id ids IH]; intros st Hst; simpl.
  - by intros [= <-].
  - destruct (get_equations rxn_id) as [[|c eqn]|]; try by apply IH.
    destruct (split_directions st rxn_id (String c eqn)) as [st1|] eqn:Hs;
      simpl; [|done].
    apply IH. by eapply split_directions_covered.
Qed.

(** Every cell the fill loop writes is addressed by a row label and a
    column label of the frame. *)
Lemma fill_labels_present get_equations reaction_ids st :
  process_reactions get_equations initial_state reaction_ids = Ok st →
  ∀ rxn stoich met coeff,
    (rxn, stoich) ∈ reaction_stoich st →
    (met, coeff) ∈ stoich →
    is_Some (label_pos (index (assemble st)) met) ∧
    is_Some (label_pos (columns (assemble st)) rxn).
Proof.
  intros Hp rxn stoich met coeff Hrxn Hmet. unfold assemble.
  destruct (fill_frame_labels (reaction_stoich st)
    (zero_frame (sorted (all_metabolites st)) (PyDict.keys (reaction_stoich st))))
    as [-> ->].
  simpl. split; apply label_pos_is_Some.
  - apply elem_of_sorted.
    eapply (process_reactions_covered _ _ initial_state); [|done..].
    by intros ? ? ? ? ?%elem_of_nil.
  - unfold PyDict.keys. apply list_elem_of_fmap. by exists (rxn, stoich).
Qed.

(** C8.  Round trip: for every row label and every column label,
    subscripting the forward map and then the inverse map gives the label
    back, without a [KeyError]; and on the labels of an assembled matrix
    each pair of maps is a bijection between the labels and their
    positions. *)
Theorem maps_round_trip (metabolites reactions : list string) :
  (∀ id, id ∈ metabolites →
     (idx ← PyDict.getitem (met_map metabolites) id;
      PyDict.getitem (inv_met_map metabolites) idx) = Ok id) ∧
  (∀ id, id ∈ reactions →
     (idx ← PyDict.getitem (rxn_map reactions) id;
      PyDict.getitem (inv_rxn_map reactions) idx) = Ok id) ∧
  (∀ get_equations reaction_ids df,
     build_stoich_matrix get_equations reaction_ids = Ok df →
     metabolites = index df →
     reactions = columns df →
     ∀ (idx : nat) (id : string),
       (PyDict.get (met_map metabolites) id = Some idx
          ↔ metabolites !! idx = Some id) ∧
       (PyDict.get (inv_met_map metabolites) idx = Some id
          ↔ metabolites !! idx = Some id) ∧
       (PyDict.get (rxn_map reactions) id = Some idx
          ↔ reactions !! idx = Some id) ∧
       (PyDict.get (inv_rxn_map reactions) idx = Some id
          ↔ reactions !! idx = Some id)).
Proof.
  split_and!; [apply round_trip | apply round_trip |].
  intros get_equations reaction_ids df Hdf -> -> idx id.
  apply assembled_labels_NoDup in Hdf as [Hi Hc].
  unfold met_map, inv_met_map, rxn_map, inv_rxn_map.
  split_and!; (split;
    [ first [apply index_map_get | apply invert_map_get_inv]
    | intros ?; first [ by apply index_map_NoDup_get
                      | by apply invert_map_get, index_map_NoDup_get ] ]).
Qed.

Lemma maps_round_trip_witness :
  (idx ← PyDict.getitem (met_map ["C00001"; "C00002"; "C00003"]) "C00002";
   PyDict.getitem (inv_met_map ["C00001"; "C00002"; "C00003"]) idx)
    = Ok "C00002" ∧
  (idx ← PyDict.getitem (rxn_map ["R00001_f"; "R00001_r"]) "R00001_r";
   PyDict.getitem (inv_rxn_map ["R00001_f"; "R00001_r"]) idx)
    = Ok "R00001_r" ∧
  PyDict.get (inv_rxn_map ["R00001_f"; "R00001_r"]) 1%nat = Some "R00001_r".
Proof.
  pose proof (maps_round_trip ["C00001"; "C00002"; "C00003"]
                ["R00001_f"; "R00001_r"]) as (Hm & Hr & Hb).
  split_and!.
  - apply Hm. apply (bool_decide_unpack _). by vm_compute.
  - apply Hr. apply (bool_decide_unpack _). by vm_compute.
  - apply (Hb two_reactions ["R00001"]
             {| index := ["C00001"; "C00002"; "C00003"];
                columns := ["R00001_f"; "R00001_r"];
                values := [[-1; 1]; [-1; 1]; [1; -1]] |});
      reflexivity.
Defined.

(** ** Parser: terms *)

Section terms.
Implicit Types (s cur term : string) (stoich : PyDict.dict string Z).

Lemma split_ws_go_lstrip s : PyStr.split_ws_go "" (PyStr.lstrip s) = PyStr.split_ws_go "" s.
Proof.
  induction s as [|c s IH]; simpl; [done|].
  destruct (PyStr.isspace c) eqn:Hc; [done|]. simpl. by rewrite Hc.
Qed.

Lemma split_ws_go_rstrip s cur :
  PyStr.split_ws_go cur (PyStr.rstrip s) = PyStr.split_ws_go cur s.
Proof.
  revert cur. induction s as [|c s IH]; intros cur; [done|].
  cbn [PyStr.rstrip]. destruct (PyStr.rstrip s) as [|c' r] eqn:Hr.
  - destruct (PyStr.isspace c) eqn:Hc; cbn [PyStr.split_ws_go]; rewrite Hc.
    + rewrite <- (IH ""). simpl. by destruct cur.
    + by rewrite <- IH.
  - cbn [PyStr.split_ws_go].
    destruct (PyStr.isspace c); [destruct cur|]; by rewrite <- IH.
Qed.

(** [term.strip().split()] is [term.split()]. *)
Lemma split_ws_strip term : PyStr.split_ws (PyStr.strip term) = tokens term.
Proof.
  unfold tokens, PyStr.split_ws, PyStr.strip.
  by rewrite split_ws_go_rstrip, split_ws_go_lstrip.
Qed.

Lemma add_term_tokens op stoich term :
  add_term op stoich term =
    match tokens term with
    | [] => Ok stoich
    | _ :: _ =>
        coeff ← term_coefficient term;
        Ok (match term_metabolite term with
            | Some met =>
                PyDict.set stoich met (op (PyDict.get_default stoich met 0) coeff)
            | None => stoich
            end)
    end.
Proof.
  unfold add_term, term_coefficient, term_metabolite, term_coeff.
  rewrite split_ws_strip. destruct (tokens term) as [|first rest]; [done|].
  destruct (if PyStr.isdigit first then PyStr.int first else Ok 1); simpl;
    [|done].
  by destruct (PyStr.startswith_C_or_G _).
Qed.

Lemma add_term_NoDup op stoich stoich' term :
  NoDup stoich.*1 → add_term op stoich term = Ok stoich' → NoDup stoich'.*1.
Proof.
  intros Hnd. rewrite add_term_tokens.
  destruct (tokens term); [by intros [= <-]|].
  destruct (term_coefficient term); simpl; [|done].
  destruct (term_metabolite term); intros [= <-]; [|done].
  by apply dict_set_NoDup.
Qed.

Lemma add_terms_NoDup op terms stoich stoich' :
  NoDup stoich.*1 → add_terms op stoich terms = Ok stoich' → NoDup stoich'.*1.
Proof.
  revert stoich. induction terms as [|term terms IH]; intros stoich Hnd; simpl.
  - by intros [= <-].
  - destruct (add_term op stoich term) as [stoich1|] eqn:H1; simpl; [|done].
    apply IH. by eapply add_term_NoDup.
Qed.

Lemma get_default_set stoich met m v :
  PyDict.get_default (PyDict.set stoich met v) m 0 =
    if decide (met = m) then v else PyDict.get_default stoich m 0.
Proof.
  unfold PyDict.get_default. rewrite dict_get_set. by case_decide.
Qed.

(** Effect of one term on the running coefficient of [m]. *)
Lemma add_term_get op stoich stoich' term m :
  (∀ x, op x 0 = x) →
  add_term op stoich term = Ok stoich' →
  PyDict.get_default stoich' m 0 =
    op (PyDict.get_default stoich m 0) (occurrence m term).
Proof.
  intros Hop. rewrite add_term_tokens. unfold occurrence.
  destruct (tokens term) eqn:Ht.
  { intros [= <-]. unfold term_metabolite. rewrite Ht.
    by rewrite decide_False, Hop. }
  destruct (term_coefficient term) as [c|]; simpl; [|done].
  destruct (term_metabolite term) as [met|]; intros [= <-].
  - rewrite get_default_set. case_decide; subst.
    + by rewrite decide_True.
    + rewrite decide_False, Hop; congruence.
  - by rewrite decide_False, Hop.
Qed.

Lemma add_terms_sub terms stoich stoich' m :
  add_terms Z.sub stoich terms = Ok stoich' →
  PyDict.get_default stoich' m 0 =
    PyDict.get_default stoich m 0 - foldr Z.add 0 (occurrence m <$> terms).
Proof.
  revert stoich. induction terms as [|term terms IH]; intros stoich; csimpl.
  - intros [= <-]. lia.
  - destruct (add_term Z.sub stoich term) as [stoich1|] eqn:H1; csimpl; [|done].
    intros ->%IH. rewrite (add_term_get _ _ _ _ m Z.sub_0_r H1). lia.
Qed.

Lemma add_terms_add terms stoich stoich' m :
  add_terms Z.add stoich terms = Ok stoich' →
  PyDict.get_default stoich' m 0 =
    PyDict.get_default stoich m 0 + foldr Z.add 0 (occurrence m <$> terms).
Proof.
  revert stoich. induction terms as [|term terms IH]; intros stoich; csimpl.
  - intros [= <-]. lia.
  - destruct (add_term Z.add stoich term) as [stoich1|] eqn:H1; csimpl; [|done].
    intros ->%IH. rewrite (add_term_get _ _ _ _ m Z.add_0_r H1). lia.
Qed.

End terms.

(** ** Parser: output *)

Section output.
Implicit Types (d : list (string * Z)) (m : string) (c : Z).

Lemma nonzero_items_filter d :
  nonzero_items d = ((filter nonzero d).*1, (filter nonzero d).*2).
Proof.
  induction d as [|[m c] d IH]; [done|].
  cbn [nonzero_items]. rewrite IH, filter_cons.
  change (decide (nonzero (m, c))) with (decide (c ≠ 0)).
  by destruct (decide (c ≠ 0)).
Qed.

(** The dictionary behind a parse: distinct keys, each metabolite at its
    net coefficient (0 when absent), and the output its non-zero items. *)
Lemma parse_sides_dict lhs rhs mets coeffs :
  parse_sides lhs rhs = Ok (mets, coeffs) →
  ∃ d, NoDup d.*1 ∧
       (∀ m, PyDict.get_default d m 0 = side_total rhs m - side_total lhs m) ∧
       mets = (filter nonzero d).*1 ∧
       coeffs = (filter nonzero d).*2.
Proof.
  unfold parse_sides.
  destruct (add_terms Z.sub [] (PyStr.split " + " lhs)) as [d1|] eqn:H1;
    simpl; [|done].
  destruct (add_terms Z.add d1 (PyStr.split " + " rhs)) as [d2|] eqn:H2;
    simpl; [|done].
  unfold PyDict.items. rewrite nonzero_items_filter. intros [= <- <-].
  exists d2. split_and!; try done.
  - eapply add_terms_NoDup; [|done]. eapply add_terms_NoDup; [|done].
    constructor.
  - intros m. rewrite (add_terms_add _ _ _ m H2), (add_terms_sub _ _ _ m H1).
    unfold side_total. cbn. lia.
Qed.

Lemma parse_sides_output lhs rhs mets coeffs :
  parse_sides lhs rhs = Ok (mets, coeffs) →
  length mets = length coeffs ∧
  NoDup mets ∧
  Forall (λ c, c ≠ 0) coeffs ∧
  (∀ m c, (m, c) ∈ zip mets coeffs ↔
          c = side_total rhs m - side_total lhs m ∧ c ≠ 0) ∧
  (∀ m, m ∈ mets ↔ side_total rhs m - side_total lhs m ≠ 0).
Proof.
  intros (d & Hnd & Hnet & -> & ->)%parse_sides_dict.
  assert (∀ m c, (m, c) ∈ filter nonzero d ↔
                 c = side_total rhs m - side_total lhs m ∧ c ≠ 0) as Hitems.
  { intros m c. rewrite list_elem_of_filter. unfold nonzero at 1. simpl.
    rewrite <- Hnet. unfold PyDict.get_default. split.
    - intros [Hc Hin]. by rewrite (dict_elem_of_get d m c Hnd Hin).
    - intros [-> Hc]. split; [done|].
      destruct (PyDict.get d m) as [c|] eqn:Hg; [|done].
      by apply dict_get_elem_of. }
  split_and!.
  - by rewrite !length_fmap.
  - eapply sublist_NoDup; [exact Hnd|]. apply fmap_sublist, sublist_filter.
  - apply Forall_fmap, Forall_forall. intros [m c] Hin.
    by apply list_elem_of_filter in Hin as [? _].
  - intros m c. by rewrite zip_fst_snd.
  - intros m. rewrite list_elem_of_fmap. split.
    + intros ([m' c] & -> & Hin%Hitems). simpl. by destruct Hin as [<- ?].
    + intros Hne. eexists (m, _). split; [done|]. by apply Hitems.
Qed.

Lemma parse_equation_sides equation lhs rhs :
  equation_sides equation = Some (lhs, rhs) →
  parse_equation equation = parse_sides lhs rhs.
Proof.
  unfold equation_sides, parse_equation.
  destruct (PyStr.contains "<=>" equation).
  - destruct (PyStr.split " <=> " equation) as [|? [|? [|? ?]]]; try done.
    by intros [= -> ->].
  - destruct (PyStr.contains "=>" equation); [|done].
    destruct (PyStr.split " => " equation) as [|? [|? [|? ?]]]; try done.
    by intros [= -> ->].
Qed.

(** A successful parse is the empty one or the parse of two sides. *)
Lemma parse_equation_cases equation mets coeffs :
  parse_equation equation = Ok (mets, coeffs) →
  (mets = [] ∧ coeffs = []) ∨
  ∃ lhs rhs, equation_sides equation = Some (lhs, rhs) ∧
             parse_sides lhs rhs = Ok (mets, coeffs).
Proof.
  unfold equation_sides, parse_equation.
  destruct (PyStr.contains "<=>" equation).
  - destruct (PyStr.split " <=> " equation) as [|l [|r [|? ?]]]; try done.
    simpl. right. by exists l, r.
  - destruct (PyStr.contains "=>" equation).
    + destruct (PyStr.split " => " equation) as [|l [|r [|? ?]]]; try done.
      simpl. right. by exists l, r.
    + intros [= <- <-]. by left.
Qed.

Lemma parse_equation_output equation mets coeffs :
  parse_equation equation = Ok (mets, coeffs) →
  length mets = length coeffs ∧ NoDup mets ∧ Forall (λ c, c ≠ 0) coeffs.
Proof.
  intros [[-> ->]|(lhs & rhs & _ & Hp)]%parse_equation_cases.
  - split_and!; [done | constructor | constructor].
  - apply parse_sides_output in Hp. tauto.
Qed.

End output.

(** C5.  Cancellation law: the output of the parser holds no zero
    coefficient, and a metabolite whose total coefficient on the left-hand
    side equals its total on the right-hand side is not in the output at
    all; every pair that is in the output carries the net coefficient
    (right total minus left total) of its metabolite. *)
Theorem cancellation_law (equation : string) (mets : list string)
    (coeffs : list Z) :
  parse_equation equation = Ok (mets, coeffs) →
  length mets = length coeffs ∧
  Forall (λ c, c ≠ 0) coeffs ∧
  (∀ lhs rhs m,
     equation_sides equation = Some (lhs, rhs) →
     side_total lhs m = side_total rhs m →
     m ∉ mets) ∧
  (∀ lhs rhs m c,
     equation_sides equation = Some (lhs, rhs) →
     (m, c) ∈ zip mets coeffs →
     c = side_total rhs m - side_total lhs m ∧ c ≠ 0).
Proof.
  intros Hp. pose proof (parse_equation_output _ _ _ Hp) as (Hlen & _ & Hnz).
  split_and!; try done.
  - intros lhs rhs m Hs Heq.
    rewrite (parse_equation_sides _ _ _ Hs) in Hp.
    apply parse_sides_output in Hp as (_ & _ & _ & _ & Hm).
    rewrite Hm. lia.
  - intros lhs rhs m c Hs Hin.
    rewrite (parse_equation_sides _ _ _ Hs) in Hp.
    apply parse_sides_output in Hp as (_ & _ & _ & Hz & _).
    by apply Hz.
Qed.

Lemma cancellation_law_witness :
  ("C00001" ∉ ["C00002"; "C00003"]) ∧
  Forall (λ c, c ≠ 0) [-1; 1].
Proof.
  destruct (cancellation_law
              "2 C00001 + C00002 <=> C00001 + C00003 + C00001"
              ["C00002"; "C00003"] [-1; 1]) as (_ & Hnz & Hc & _).
  { reflexivity. }
  split; [|exact Hnz].
  apply (Hc "2 C00001 + C00002" "C00001 + C00003 + C00001" "C00001");
    reflexivity.
Defined.

(** ** Direction splitting *)

Lemma directed_ids_differ (rxn_id : string) : rxn_id +:+ "_f" ≠ rxn_id +:+ "_r".
Proof. by intros ?%(inj (String.app rxn_id)). Qed.

Lemma zip_negated (mets : list string) (coeffs : list Z) :
  (λ mc : string * Z, (mc.1, - mc.2)) <$> zip mets coeffs
    = zip mets (Z.opp <$> coeffs).
Proof.
  revert coeffs. induction mets as [|m mets IH]; intros [|c coeffs]; csimpl;
    try done.
  by rewrite IH.
Qed.

Lemma of_pairs_zip (mets : list string) (coeffs : list Z) :
  NoDup mets → length mets = length coeffs →
  PyDict.of_pairs (zip mets coeffs) = zip mets coeffs.
Proof.
  intros Hnd Hlen. apply of_pairs_NoDup_id. rewrite fst_zip; [done | lia].
Qed.

(** C3 (amended).  For an equation that contains ["<=>"] and parses to at
    least one metabolite, one pass of the splitter writes exactly two
    records, under [rxn_id_f] and [rxn_id_r]: the forward record pairs the
    parsed metabolites with the parsed coefficients, the reverse record
    pairs the same metabolites with the negated coefficients, every other
    record is left as it was, and from an empty collection the keys are
    exactly the two, forward first. *)
Theorem reversible_two_records (st : build_state) (rxn_id eqn : string)
    (mets : list string) (coeffs : list Z) :
  PyStr.contains "<=>" eqn = true →
  parse_equation eqn = Ok (mets, coeffs) →
  mets ≠ [] →
  ∃ st',
    split_directions st rxn_id eqn = Ok st' ∧
    PyDict.get (reaction_stoich st') (rxn_id +:+ "_f")
      = Some (zip mets coeffs) ∧
    PyDict.get (reaction_stoich st') (rxn_id +:+ "_r")
      = Some (zip mets (Z.opp <$> coeffs)) ∧
    (∀ k, k ≠ rxn_id +:+ "_f" → k ≠ rxn_id +:+ "_r" →
          PyDict.get (reaction_stoich st') k = PyDict.get (reaction_stoich st) k) ∧
    (reaction_stoich st = [] →
     PyDict.keys (reaction_stoich st') = [rxn_id +:+ "_f"; rxn_id +:+ "_r"]).
Proof.
  intros Hrev Hp Hne.
  pose proof (parse_equation_output _ _ _ Hp) as (Hlen & Hnd & _).
  pose proof (directed_ids_differ rxn_id) as Hfr.
  unfold split_directions. rewrite Hp, Hrev. simpl.
  destruct mets as [|m mets']; [done|].
  remember (m :: mets') as ms eqn:Hms. clear Hms Hne.
  eexists. split; [done|]. cbn [reaction_stoich].
  unfold negated. rewrite zip_negated.
  rewrite !of_pairs_zip by (by rewrite ?length_fmap).
  split_and!.
  - by rewrite dict_get_set_ne, dict_get_set_eq.
  - by rewrite dict_get_set_eq.
  - intros k Hf Hr. by rewrite !dict_get_set_ne.
  - intros ->. unfold PyDict.keys. simpl. by rewrite decide_False.
Qed.

Lemma reversible_two_records_witness :
  ∃ st',
    split_directions initial_state "R00001" "C00001 + C00002 <=> C00003"
      = Ok st' ∧
    PyDict.get (reaction_stoich st') "R00001_f"
      = Some [("C00001", -1); ("C00002", -1); ("C00003", 1)] ∧
    PyDict.get (reaction_stoich st') "R00001_r"
      = Some [("C00001", 1); ("C00002", 1); ("C00003", -1)] ∧
    PyDict.keys (reaction_stoich st') = ["R00001_f"; "R00001_r"].
Proof.
  destruct (reversible_two_records initial_state "R00001"
              "C00001 + C00002 <=> C00003"
              ["C00001"; "C00002"; "C00003"] [-1; -1; 1])
    as (st' & Hs & Hf & Hr & _ & Hk).
  - reflexivity.
  - reflexivity.
  - discriminate.
  - exists st'. split; [exact Hs|]. split; [exact Hf|].
    split; [exact Hr|]. apply Hk. reflexivity.
Defined.

(** C3 as first stated fails on a reversible equation that cancels
    completely: ["C00001 <=> C00001"] contains ["<=>"], yet from an empty
    collection the splitter leaves a single record, the empty reverse
    one. *)
Lemma reversible_degenerate_one_record :
  PyStr.contains "<=>" "C00001 <=> C00001" = true ∧
  ∃ st',
    split_directions initial_state "R00001" "C00001 <=> C00001" = Ok st' ∧
    reaction_stoich st' = [("R00001_r", [])] ∧
    length (PyDict.keys (reaction_stoich st')) ≠ 2%nat ∧
    PyDict.get (reaction_stoich st') "R00001_f" = None.
Proof.
  split; [reflexivity|]. eexists. split; [by vm_compute|].
  simpl. split_and!; done.
Qed.

(** ** Coefficient and metabolite of a term *)






(** A first token of digit characters that are not decimal digits, such
    as U+00B2 (superscript two), passes [isdigit] and is rejected by
    [int]: the parse raises. *)
Example superscript_coefficient_raises :
  PyStr.isdigit (String "178" "") = true ∧
  parse_equation (String "178" " C00001 => C00002") = Raise ValueError.
Proof. by vm_compute. Qed.

(** * Further properties *)

(** ** Parser: keys and order *)

Section keys.
Implicit Types (d : list (string * Z)) (ks l : list string) (k m : string).

Lemma dict_set_add_key {V : Type} (d : list (string * V)) k (v : V) :
  (PyDict.set d k v).*1 = add_key d.*1 k.
Proof.
  rewrite dict_set_fst. unfold add_key.
  destruct (PyDict.get d k) eqn:Hg.
  - rewrite decide_True; [done|]. apply dict_get_is_Some. by eexists.
  - rewrite decide_False; [done|]. by apply dict_get_None.
Qed.

Lemma term_metabolite_prefixed term m :
  term_metabolite term = Some m → PyStr.startswith_C_or_G m = true.
Proof.
  unfold term_metabolite. destruct (tokens term) as [|first rest]; [done|].
  destruct (PyStr.startswith_C_or_G _) eqn:Hp; [|done]. by intros [= <-].
Qed.

Lemma add_term_keys op d d' term :
  add_term op d term = Ok d' →
  d'.*1 = from_option (add_key d.*1) d.*1 (term_metabolite term).
Proof.
  rewrite add_term_tokens. destruct (tokens term) eqn:Ht.
  { intros [= <-]. unfold term_metabolite. by rewrite Ht. }
  destruct (term_coefficient term); simpl; [|done].
  destruct (term_metabolite term); intros [= <-]; simpl; [|done].
  apply dict_set_add_key.
Qed.

Lemma add_terms_keys op terms d d' :
  add_terms op d terms = Ok d' →
  d'.*1 = fold_left add_key (omap term_metabolite terms) d.*1.
Proof.
  revert d. induction terms as [|term terms IH]; intros d; simpl.
  - by intros [= <-].
  - destruct (add_term op d term) as [d1|] eqn:H1; simpl; [|done].
    intros ->%IH. rewrite (add_term_keys _ _ _ _ H1).
    by destruct (term_metabolite term).
Qed.

Lemma remove_dups_later l1 l2 k :
  k ∈ l2 → remove_dups (l1 ++ k :: l2) = remove_dups (l1 ++ l2).
Proof.
  intros Hk. induction l1 as [|x l1 IH]; simpl.
  - by destruct (decide_rel elem_of k l2).
  - rewrite IH.
    destruct (decide_rel elem_of x (l1 ++ k :: l2)) as [Hx|Hx],
      (decide_rel elem_of x (l1 ++ l2)) as [Hy|Hy]; try done.
    + exfalso. apply Hy. rewrite elem_of_app, elem_of_cons in Hx.
      rewrite elem_of_app. destruct Hx as [?|[->|?]]; auto.
    + exfalso. apply Hx. rewrite elem_of_app in Hy.
      rewrite elem_of_app, elem_of_cons. tauto.
Qed.

Lemma remove_dups_NoDup l : NoDup l → remove_dups l = l.
Proof.
  induction 1 as [|x l Hx _ IH]; simpl; [done|].
  rewrite IH. by destruct (decide_rel elem_of x l).
Qed.

Lemma fold_add_key l ks :
  NoDup ks → fold_left add_key l ks = first_seen (ks ++ l).
Proof.
  revert ks. induction l as [|x l IH]; intros ks Hnd; simpl.
  - unfold first_seen. rewrite app_nil_r, remove_dups_NoDup.
    + apply symmetry, reverse_involutive.
    + by rewrite reverse_Permutation.
  - unfold add_key at 2. case_decide as Hx.
    + rewrite IH by done. unfold first_seen. f_equal.
      rewrite !reverse_app, reverse_cons, <- app_assoc. simpl.
      apply symmetry, remove_dups_later. by apply elem_of_reverse.
    + rewrite IH.
      * by rewrite <- app_assoc.
      * apply NoDup_app. split_and!; [done | | apply NoDup_singleton].
        by intros y Hy ->%list_elem_of_singleton.
Qed.

Lemma filter_keys_by_value (f : string → Z) d :
  (∀ m c, (m, c) ∈ d → c = f m) →
  (filter nonzero d).*1 = filter (λ m, f m ≠ 0) d.*1.
Proof.
  induction d as [|[m c] d IH]; intros Hf; [done|].
  rewrite fmap_cons, !filter_cons. simpl.
  change (decide (nonzero (m, c))) with (decide (c ≠ 0)).
  rewrite <- (Hf m c) by left.
  rewrite <- IH by (intros ? ? ?; apply Hf; by right).
  by destruct (decide (c ≠ 0)).
Qed.

(** The two loops and the filter behind a successful [parse_sides]. *)
Lemma parse_sides_inv lhs rhs mets coeffs :
  parse_sides lhs rhs = Ok (mets, coeffs) →
  ∃ d1 d2,
    add_terms Z.sub [] (PyStr.split " + " lhs) = Ok d1 ∧
    add_terms Z.add d1 (PyStr.split " + " rhs) = Ok d2 ∧
    mets = (filter nonzero d2).*1 ∧
    coeffs = (filter nonzero d2).*2.
Proof.
  unfold parse_sides.
  destruct (add_terms Z.sub [] (PyStr.split " + " lhs)) as [d1|] eqn:H1;
    simpl; [|done].
  destruct (add_terms Z.add d1 (PyStr.split " + " rhs)) as [d2|] eqn:H2;
    simpl; [|done].
  unfold PyDict.items. rewrite nonzero_items_filter. intros [= <- <-].
  by exists d1, d2.
Qed.

Lemma fold_add_key_Forall (P : string → Prop) l ks :
  Forall P ks → Forall P l → Forall P (fold_left add_key l ks).
Proof.
  revert ks. induction l as [|x l IH]; intros ks Hks Hl; simpl; [done|].
  apply Forall_cons in Hl as [Hx Hl]. apply IH; [|done].
  unfold add_key. case_decide; [done|]. apply Forall_app. by split; [|constructor].
Qed.

Lemma retained_prefixed terms :
  Forall (λ m, PyStr.startswith_C_or_G m = true) (omap term_metabolite terms).
Proof.
  apply Forall_forall. intros m (term & _ & Hm)%list_elem_of_omap.
  by eapply term_metabolite_prefixed.
Qed.

Lemma parse_sides_order lhs rhs mets coeffs :
  parse_sides lhs rhs = Ok (mets, coeffs) →
  mets = filter (λ m, net lhs rhs m ≠ 0)
           (first_seen (retained lhs ++ retained rhs)).
Proof.
  intros (d1 & d2 & H1 & H2 & -> & _)%parse_sides_inv.
  assert (NoDup d2.*1) as Hnd.
  { eapply add_terms_NoDup; [|exact H2].
    eapply add_terms_NoDup; [|exact H1]. constructor. }
  rewrite (filter_keys_by_value (net lhs rhs)).
  - f_equal. rewrite (add_terms_keys _ _ _ _ H2), (add_terms_keys _ _ _ _ H1).
    unfold retained. rewrite <- fold_left_app.
    rewrite fold_add_key by constructor. done.
  - intros m c Hin. apply (dict_elem_of_get _ _ _ Hnd) in Hin.
    pose proof (add_terms_add _ _ _ m H2) as Ha.
    pose proof (add_terms_sub _ _ _ m H1) as Hs.
    unfold PyDict.get_default in Ha at 1. rewrite Hin in Ha.
    unfold net, side_total. rewrite Ha, Hs. cbn. lia.
Qed.

Lemma term_coefficient_raises term e :
  term_coefficient term = Raise e → e = ValueError.
Proof.
  unfold term_coefficient, PyStr.int.
  destruct (tokens term) as [|first rest]; [done|].
  destruct (PyStr.isdigit first); [|done].
  destruct (_ && _); [done|]. by intros [= <-].
Qed.

Lemma add_term_ok op d term :
  (∃ d', add_term op d term = Ok d') ↔ converts term.
Proof.
  rewrite add_term_tokens. unfold converts.
  destruct (tokens term) eqn:Ht.
  { unfold term_coefficient. rewrite Ht. split; eauto. }
  destruct (term_coefficient term) as [c|e]; simpl.
  - split; eauto.
  - split; by intros [? ?].
Qed.

Lemma add_term_raises op d term e :
  add_term op d term = Raise e → e = ValueError.
Proof.
  rewrite add_term_tokens. destruct (tokens term); [done|].
  destruct (term_coefficient term) as [c|e'] eqn:Hc; simpl; [done|].
  intros [= <-]. by eapply term_coefficient_raises.
Qed.

Lemma add_terms_ok op terms d :
  (∃ d', add_terms op d terms = Ok d') ↔ Forall converts terms.
Proof.
  revert d. induction terms as [|term terms IH]; intros d; simpl.
  - split; [constructor | eauto].
  - rewrite Forall_cons, <- (add_term_ok op d term). split.
    + intros [d' Hd']. destruct (add_term op d term) as [d1|]; [|done].
      split; [by eexists|]. apply (IH d1). by exists d'.
    + intros [[d1 ->] Hall]. simpl. by apply IH.
Qed.

Lemma add_terms_raises op terms d e :
  add_terms op d terms = Raise e → e = ValueError.
Proof.
  revert d. induction terms as [|term terms IH]; intros d; simpl; [done|].
  destruct (add_term op d term) as [d1|e1] eqn:H1; simpl.
  - apply IH.
  - intros [= <-]. by eapply add_term_raises.
Qed.

Lemma parse_sides_ok lhs rhs :
  (∃ r, parse_sides lhs rhs = Ok r) ↔
  Forall converts (PyStr.split " + " lhs ++ PyStr.split " + " rhs).
Proof.
  rewrite Forall_app, <- (add_terms_ok Z.sub _ []). unfold parse_sides. split.
  - intros [r Hr].
    destruct (add_terms Z.sub [] (PyStr.split " + " lhs)) as [d1|]; [|done].
    split; [by eexists|]. apply (add_terms_ok Z.add _ d1).
    simpl in Hr. destruct (add_terms Z.add d1 _); [by eexists | done].
  - intros [[d1 ->] [d2 H2]%(add_terms_ok Z.add _ d1)]. simpl. rewrite H2.
    simpl. by eexists.
Qed.

Lemma parse_sides_raises lhs rhs e :
  parse_sides lhs rhs = Raise e → e = ValueError.
Proof.
  unfold parse_sides.
  destruct (add_terms Z.sub [] (PyStr.split " + " lhs)) as [d1|e1] eqn:H1;
    simpl; [|intros [= <-]; by eapply add_terms_raises].
  destruct (add_terms Z.add d1 (PyStr.split " + " rhs)) as [d2|e2] eqn:H2;
    simpl; [done|]. intros [= <-]. by eapply add_terms_raises.
Qed.

End keys.

(** X1.  The metabolites a parse returns are pairwise distinct and each
    starts with [C] or [G]. *)
Theorem parse_output_wellformed (equation : string) (mets : list string)
    (coeffs : list Z) :
  parse_equation equation = Ok (mets, coeffs) →
  NoDup mets ∧ Forall (λ m, PyStr.startswith_C_or_G m = true) mets.
Proof.
  intros Hp. split; [by apply parse_equation_output in Hp as (_ & ? & _)|].
  apply parse_equation_cases in Hp as [[-> _]|(lhs & rhs & _ & Hp)];
    [constructor|].
  rewrite (parse_sides_order _ _ _ _ Hp). apply Forall_forall.
  intros m [_ Hm]%list_elem_of_filter. unfold first_seen in Hm.
  rewrite elem_of_reverse, elem_of_remove_dups, elem_of_reverse in Hm.
  apply elem_of_app in Hm as [Hm|Hm];
    eapply (proj1 (Forall_forall _ _) (retained_prefixed _)); exact Hm.
Qed.

Lemma parse_output_wellformed_witness :
  NoDup ["C00002"; "G00003"] ∧
  Forall (λ m, PyStr.startswith_C_or_G m = true) ["C00002"; "G00003"].
Proof.
  apply (parse_output_wellformed "2 C00002 + H2O => C00002 + G00003"
           ["C00002"; "G00003"] [-1; 1]).
  reflexivity.
Defined.

(** X2.  A metabolite is in the output of a parse exactly when its net
    coefficient (right total minus left total) is not 0, and then it is
    paired with that net coefficient. *)
Theorem net_coefficient_complete (equation lhs rhs : string)
    (mets : list string) (coeffs : list Z) :
  equation_sides equation = Some (lhs, rhs) →
  parse_equation equation = Ok (mets, coeffs) →
  ∀ m, (m ∈ mets ↔ net lhs rhs m ≠ 0) ∧
       (net lhs rhs m ≠ 0 → (m, net lhs rhs m) ∈ zip mets coeffs).
Proof.
  intros Hs Hp m. rewrite (parse_equation_sides _ _ _ Hs) in Hp.
  apply parse_sides_output in Hp as (_ & _ & _ & Hz & Hm).
  split; [apply Hm|]. intros Hne. by apply Hz.
Qed.

Lemma net_coefficient_complete_witness :
  ("C00001", -3) ∈ zip ["C00001"; "C00002"] [-3; 2].
Proof.
  apply (net_coefficient_complete "4 C00001 => C00001 + 2 C00002"
           "4 C00001" "C00001 + 2 C00002" ["C00001"; "C00002"] [-3; 2]
           eq_refl eq_refl "C00001").
  by vm_compute.
Defined.

(** X3.  The output lists the metabolites in the order in which they
    first appear among the kept terms, left-hand side first, leaving out
    those whose net coefficient is 0. *)
Theorem output_first_appearance_order (equation lhs rhs : string)
    (mets : list string) (coeffs : list Z) :
  equation_sides equation = Some (lhs, rhs) →
  parse_equation equation = Ok (mets, coeffs) →
  mets = filter (λ m, net lhs rhs m ≠ 0)
           (first_seen (retained lhs ++ retained rhs)).
Proof.
  intros Hs Hp. rewrite (parse_equation_sides _ _ _ Hs) in Hp.
  by eapply parse_sides_order.
Qed.

Lemma output_first_appearance_order_witness :
  ["C00009"; "C00001"] =
    filter (λ m, net "C00009 + C00005 + C00001" "C00005 + C00001 + C00001" m ≠ 0)
      (first_seen (retained "C00009 + C00005 + C00001"
                     ++ retained "C00005 + C00001 + C00001")).
Proof.
  apply (output_first_appearance_order
           "C00009 + C00005 + C00001 <=> C00005 + C00001 + C00001"
           "C00009 + C00005 + C00001" "C00005 + C00001 + C00001"
           ["C00009"; "C00001"] [-1; 1] eq_refl eq_refl).
Defined.

Lemma parse_equation_raises equation e :
  parse_equation equation = Raise e → e = ValueError.
Proof.
  unfold parse_equation.
  destruct (PyStr.contains "<=>" equation).
  - destruct (PyStr.split " <=> " equation) as [|l [|r [|? ?]]]; simpl;
      try by intros [= <-].
    apply parse_sides_raises.
  - destruct (PyStr.contains "=>" equation); [|done].
    destruct (PyStr.split " => " equation) as [|l [|r [|? ?]]]; simpl;
      try by intros [= <-].
    apply parse_sides_raises.
Qed.

(** X4.  For an equation that splits into two sides, the parse returns
    exactly when the coefficient of every term of both sides can be
    computed; otherwise it raises [ValueError].  The parser raises no
    other exception on any input. *)
Theorem parse_returns_iff_convertible (equation : string) :
  (∀ lhs rhs,
     equation_sides equation = Some (lhs, rhs) →
     ((∃ r, parse_equation equation = Ok r) ↔
      Forall converts (PyStr.split " + " lhs ++ PyStr.split " + " rhs))) ∧
  (∀ e, parse_equation equation = Raise e → e = ValueError).
Proof.
  split.
  - intros lhs rhs Hs. rewrite (parse_equation_sides _ _ _ Hs).
    apply parse_sides_ok.
  - apply parse_equation_raises.
Qed.

Lemma parse_returns_iff_convertible_witness :
  ∃ r, parse_equation "2 C00001 + n C00002 => C00003" = Ok r.
Proof.
  apply (proj1 (parse_returns_iff_convertible _) "2 C00001 + n C00002" "C00003").
  - reflexivity.
  - repeat constructor; eexists; reflexivity.
Defined.

(** X5.  Exchanging the two sides of an equation exchanges the sign of
    every coefficient: if one parse returns so does the other, and a
    metabolite is paired with [c] in one exactly when it is paired with
    [- c] in the other. *)
Theorem swapped_sides_negate (equation equation' lhs rhs : string)
    (mets : list string) (coeffs : list Z) :
  equation_sides equation = Some (lhs, rhs) →
  equation_sides equation' = Some (rhs, lhs) →
  parse_equation equation = Ok (mets, coeffs) →
  ∃ mets' coeffs',
    parse_equation equation' = Ok (mets', coeffs') ∧
    ∀ m c, (m, c) ∈ zip mets coeffs ↔ (m, - c) ∈ zip mets' coeffs'.
Proof.
  intros Hs Hs' Hp.
  rewrite (parse_equation_sides _ _ _ Hs) in Hp.
  rewrite (parse_equation_sides _ _ _ Hs').
  assert (∃ r, parse_sides rhs lhs = Ok r) as [[mets' coeffs'] Hp'].
  { apply parse_sides_ok. apply Forall_app.
    assert (∃ r, parse_sides lhs rhs = Ok r) as Hok by by eexists.
    apply parse_sides_ok, Forall_app in Hok. tauto. }
  exists mets', coeffs'. split; [done|]. intros m c.
  apply parse_sides_output in Hp as (_ & _ & _ & Hz & _).
  apply parse_sides_output in Hp' as (_ & _ & _ & Hz' & _).
  rewrite Hz, Hz'. lia.
Qed.

Lemma swapped_sides_negate_witness :
  ∃ mets' coeffs',
    parse_equation "C00003 => 2 C00001 + C00002" = Ok (mets', coeffs') ∧
    ∀ m c, (m, c) ∈ zip ["C00001"; "C00002"; "C00003"] [-2; -1; 1]
           ↔ (m, - c) ∈ zip mets' coeffs'.
Proof.
  apply (swapped_sides_negate "2 C00001 + C00002 <=> C00003"
           "C00003 => 2 C00001 + C00002" "2 C00001 + C00002" "C00003");
    reflexivity.
Defined.

(** ** Direction splitting: records, columns, failures *)

Lemma dict_set_same {K V : Type} `{EqDecision K} (d : list (K * V)) k v :
  PyDict.get d k = Some v → PyDict.set d k v = d.
Proof.
  induction d as [|[k0 v0] d IH]; simpl; [done|].
  case_decide; [by intros [= ->] | intros ?; f_equal; auto].
Qed.

(** X6.  For an equation without ["<=>"] that parses to at least one
    metabolite, one pass of the splitter writes the forward record and
    nothing else: the record under [rxn_id_f] pairs the parsed
    metabolites with the parsed coefficients, every other record, the one
    under [rxn_id_r] included, is as before, and the parsed metabolites
    join the set of metabolites. *)
Theorem irreversible_one_record (st : build_state) (rxn_id eqn : string)
    (mets : list string) (coeffs : list Z) :
  PyStr.contains "<=>" eqn = false →
  parse_equation eqn = Ok (mets, coeffs) →
  mets ≠ [] →
  ∃ st',
    split_directions st rxn_id eqn = Ok st' ∧
    PyDict.get (reaction_stoich st') (rxn_id +:+ "_f")
      = Some (zip mets coeffs) ∧
    (∀ k, k ≠ rxn_id +:+ "_f" →
          PyDict.get (reaction_stoich st') k = PyDict.get (reaction_stoich st) k) ∧
    all_metabolites st' = all_metabolites st ∪ list_to_set mets.
Proof.
  intros Hrev Hp Hne.
  pose proof (parse_equation_output _ _ _ Hp) as (Hlen & Hnd & _).
  unfold split_directions. rewrite Hp, Hrev. simpl.
  destruct mets as [|m mets']; [done|].
  remember (m :: mets') as ms eqn:Hms. clear Hms Hne.
  eexists. split; [done|]. cbn [reaction_stoich all_metabolites].
  rewrite of_pairs_zip by done. split_and!; [|by intros; rewrite dict_get_set_ne|done].
  by rewrite dict_get_set_eq.
Qed.

Lemma irreversible_one_record_witness :
  ∃ st',
    split_directions initial_state "R00002" "2 C00001 => C00004" = Ok st' ∧
    PyDict.get (reaction_stoich st') "R00002_f"
      = Some [("C00001", -2); ("C00004", 1)] ∧
    PyDict.get (reaction_stoich st') "R00002_r" = None.
Proof.
  destruct (irreversible_one_record initial_state "R00002"
              "2 C00001 => C00004" ["C00001"; "C00004"] [-2; 1])
    as (st' & Hs & Hf & Hk & _); [reflexivity | reflexivity | discriminate |].
  exists st'. split; [exact Hs|]. split; [exact Hf|].
  rewrite Hk; [reflexivity | discriminate].
Defined.

(** X7.  Column order: for an equation that parses to at least one
    metabolite the forward key, and after it the reverse key of a
    reversible equation, is put at the end of the keys unless it is there
    already; so for a reaction seen for the first time the forward column
    is new and last but one, directly followed by the reverse column. *)
Theorem new_reaction_columns (st : build_state) (rxn_id eqn : string)
    (mets : list string) (coeffs : list Z) :
  parse_equation eqn = Ok (mets, coeffs) →
  mets ≠ [] →
  ∃ st',
    split_directions st rxn_id eqn = Ok st' ∧
    PyDict.keys (reaction_stoich st') =
      (if PyStr.contains "<=>" eqn
       then add_key (add_key (PyDict.keys (reaction_stoich st))
                       (rxn_id +:+ "_f")) (rxn_id +:+ "_r")
       else add_key (PyDict.keys (reaction_stoich st)) (rxn_id +:+ "_f")) ∧
    (PyStr.contains "<=>" eqn = true →
     rxn_id +:+ "_f" ∉ PyDict.keys (reaction_stoich st) →
     rxn_id +:+ "_r" ∉ PyDict.keys (reaction_stoich st) →
     PyDict.keys (reaction_stoich st') =
       PyDict.keys (reaction_stoich st) ++ [rxn_id +:+ "_f"; rxn_id +:+ "_r"]).
Proof.
  intros Hp Hne. unfold split_directions. rewrite Hp. simpl.
  destruct mets as [|m mets']; [done|].
  remember (m :: mets') as ms eqn:Hms. clear Hms Hne.
  destruct (PyStr.contains "<=>" eqn) eqn:Hrev;
    (eexists; split; [done|]); cbn [reaction_stoich]; unfold PyDict.keys;
    rewrite !dict_set_add_key; (split; [done|]); [|done].
  intros _ Hf Hr. unfold add_key.
  rewrite (decide_False _ _ Hf). rewrite decide_False.
  - by rewrite <- app_assoc.
  - rewrite elem_of_app, list_elem_of_singleton.
    intros [?|Heq]; [done|]. by apply (directed_ids_differ rxn_id).
Qed.

Lemma new_reaction_columns_witness :
  ∃ st',
    split_directions initial_state "R00001" "C00001 + C00002 <=> C00003"
      = Ok st' ∧
    PyDict.keys (reaction_stoich st') = [] ++ ["R00001_f"; "R00001_r"].
Proof.
  destruct (new_reaction_columns initial_state "R00001"
              "C00001 + C00002 <=> C00003"
              ["C00001"; "C00002"; "C00003"] [-1; -1; 1])
    as (st' & Hs & _ & Hk); [reflexivity | discriminate |].
  exists st'. split; [exact Hs|].
  apply Hk; [reflexivity | apply not_elem_of_nil | apply not_elem_of_nil].
Defined.

Lemma split_directions_raises st rxn_id eqn e :
  split_directions st rxn_id eqn = Raise e → e = ValueError.
Proof.
  unfold split_directions.
  destruct (parse_equation eqn) as [[ms cs]|e'] eqn:Hp; simpl; [done|].
  intros [= <-]. by eapply parse_equation_raises.
Qed.

Lemma process_reactions_raises get_equations reaction_ids st e :
  process_reactions get_equations st reaction_ids = Raise e → e = ValueError.
Proof.
  revert st. induction reaction_ids as [|rxn_id ids IH]; intros st; simpl;
    [done|].
  destruct (get_equations rxn_id) as [[|c eqn]|]; try apply IH.
  destruct (split_directions st rxn_id (String c eqn)) as [st1|e1] eqn:Hs;
    simpl; [apply IH|].
  intros [= <-]. by eapply split_directions_raises.
Qed.

Lemma process_reactions_aborts get_equations reaction_ids st rxn_id eqn e :
  rxn_id ∈ reaction_ids →
  get_equations rxn_id = Some eqn →
  eqn ≠ "" →
  parse_equation eqn = Raise e →
  process_reactions get_equations st reaction_ids = Raise ValueError.
Proof.
  intros Hin Hg Hne Hp. revert st.
  induction reaction_ids as [|rxn_id' ids IH]; intros st;
    [by apply elem_of_nil in Hin|].
  simpl. destruct (decide (rxn_id' = rxn_id)) as [->|Hneq].
  - rewrite Hg. destruct eqn as [|c eqn]; [done|].
    unfold split_directions at 1. rewrite Hp. simpl.
    by rewrite (parse_equation_raises _ _ Hp).
  - apply elem_of_cons in Hin as [?|Hin]; [done|].
    destruct (get_equations rxn_id') as [[|c' eqn']|]; try by apply IH.
    destruct (split_directions st rxn_id' (String c' eqn')) as [st1|e1] eqn:Hs;
      simpl; [by apply IH|].
    by rewrite (split_directions_raises _ _ _ _ Hs).
Qed.

(** X8.  One equation that the parser rejects aborts the whole build: if
    any listed reaction has a fetched, non-empty equation on which
    [parse_equation] raises, [build_stoich_matrix] raises [ValueError]
    in its loop over the reactions and returns no matrix; and
    [ValueError] is the only exception that loop raises. *)
Theorem bad_equation_aborts_build (get_equations : string → option string)
    (reaction_ids : list string) :
  (∀ rxn_id eqn e,
     rxn_id ∈ reaction_ids →
     get_equations rxn_id = Some eqn →
     eqn ≠ "" →
     parse_equation eqn = Raise e →
     build_stoich_matrix get_equations reaction_ids = Raise ValueError) ∧
  (∀ st e, process_reactions get_equations st reaction_ids = Raise e →
           e = ValueError).
Proof.
  split.
  - intros rxn_id eqn e Hin Hg Hne Hp. unfold build_stoich_matrix.
    by rewrite (process_reactions_aborts _ _ _ _ _ _ Hin Hg Hne Hp).
  - intros st e. apply process_reactions_raises.
Qed.

Lemma bad_equation_aborts_build_witness :
  build_stoich_matrix
    (λ rxn_id, if decide (rxn_id = "R00009") then Some "C00001<=>C00002"
               else Some "C00001 <=> C00002")
    ["R00001"; "R00009"; "R00002"] = Raise ValueError.
Proof.
  apply (proj1 (bad_equation_aborts_build _ _) "R00009" "C00001<=>C00002"
           ValueError).
  - apply (bool_decide_unpack _). by vm_compute.
  - reflexivity.
  - discriminate.
  - reflexivity.
Defined.

Lemma union_twice (X M : gset string) : X ∪ M ∪ M = X ∪ M.
Proof. by rewrite <- (assoc_L (∪)), (idemp_L (∪)). Qed.

(** ** The assembled frame *)

Section frame.
Implicit Types (df : DataFrame) (labels : list string) (met rxn : string).

Lemma label_pos_lookup labels x i :
  label_pos labels x = Some i → labels !! i = Some x.
Proof.
  revert i. induction labels as [|y labels IH]; intros i; simpl; [done|].
  case_decide; [by intros [= <-]; subst|].
  destruct (label_pos labels x) as [i'|]; simpl; [|done].
  intros [= <-]. by apply IH.
Qed.

Lemma label_pos_elem_of labels x i : label_pos labels x = Some i → x ∈ labels.
Proof. intros ?%label_pos_lookup. by eapply list_elem_of_lookup_2. Qed.

Lemma cell_write (M : list (list Z)) (i j i' j' : nat) (row : list Z) (c : Z) :
  M !! i = Some row → (j < length row)%nat →
  cell (alter (λ row, <[j := c]> row) i M) i' j' =
    if decide (i' = i ∧ j' = j) then Some c else cell M i' j'.
Proof.
  intros Hrow Hj. unfold cell.
  destruct (decide (i' = i)) as [->|Hi].
  - rewrite list_lookup_alter_eq, Hrow. simpl.
    destruct (decide (j' = j)) as [->|Hj'].
    + rewrite decide_True by done. by apply list_lookup_insert_eq.
    + rewrite decide_False by tauto. by apply list_lookup_insert_ne.
  - rewrite list_lookup_alter_ne by done. rewrite decide_False; tauto.
Qed.

Lemma loc_set_shape df met rxn c :
  well_shaped df → well_shaped (loc_set df met rxn c).
Proof.
  intros [Hrows Hcols]. unfold loc_set.
  destruct (label_pos (index df) met) as [i|]; [|done].
  destruct (label_pos (columns df) rxn) as [j|]; [|done].
  split; simpl; [by rewrite length_alter|].
  apply Forall_alter; [done|]. intros row _ Hrow. by rewrite length_insert.
Qed.

Lemma loc_set_at df met rxn c met' rxn' :
  well_shaped df →
  is_Some (label_pos (index df) met) →
  is_Some (label_pos (columns df) rxn) →
  frame_at (loc_set df met rxn c) met' rxn' =
    if decide (met' = met ∧ rxn' = rxn) then Some c else frame_at df met' rxn'.
Proof.
  intros [Hrows Hcols] [i Hi] [j Hj]. unfold loc_set, frame_at.
  rewrite Hi, Hj. simpl.
  destruct (values df !! i) as [row|] eqn:Hrow.
  2: { apply lookup_ge_None in Hrow. apply label_pos_lookup, lookup_lt_Some in Hi.
       lia. }
  assert (j < length row)%nat as Hjlt.
  { rewrite (proj1 (Forall_forall _ _) Hcols row)
      by (by eapply list_elem_of_lookup_2).
    by apply label_pos_lookup, lookup_lt_Some in Hj. }
  destruct (label_pos (index df) met') as [i'|] eqn:Hi'; simpl.
  2: { rewrite decide_False; [done|]. intros [-> _]. congruence. }
  destruct (label_pos (columns df) rxn') as [j'|] eqn:Hj'; simpl.
  2: { rewrite decide_False; [done|]. intros [_ ->]. congruence. }
  rewrite (cell_write _ _ _ _ _ _ _ Hrow Hjlt).
  destruct (decide (i' = i ∧ j' = j)) as [[-> ->]|Hne].
  - rewrite decide_True; [done|].
    apply label_pos_lookup in Hi, Hi', Hj, Hj'. split; congruence.
  - rewrite decide_False; [done|]. intros [-> ->]. apply Hne. split; congruence.
Qed.

Lemma fill_record_shape (stoich : list (string * Z)) df rxn :
  well_shaped df → well_shaped (fill_record df rxn stoich).
Proof.
  unfold fill_record, PyDict.items. revert df.
  induction stoich as [|[m c] stoich IH]; intros df Hdf; simpl; [done|].
  by apply IH, loc_set_shape.
Qed.

Lemma fill_record_at (stoich : list (string * Z)) df rxn met' rxn' :
  well_shaped df →
  is_Some (label_pos (columns df) rxn) →
  (∀ m c, (m, c) ∈ stoich → is_Some (label_pos (index df) m)) →
  NoDup stoich.*1 →
  frame_at (fill_record df rxn stoich) met' rxn' =
    if decide (rxn' = rxn)
    then from_option Some (frame_at df met' rxn') (PyDict.get stoich met')
    else frame_at df met' rxn'.
Proof.
  unfold fill_record, PyDict.items. revert df.
  induction stoich as [|[m c] stoich IH]; intros df Hdf Hrxn Hmets Hnd.
  { simpl. by case_decide. }
  rewrite fmap_cons in Hnd. apply NoDup_cons in Hnd as [Hm Hnd].
  cbn [fst] in Hm. cbn [fold_left fst snd].
  destruct (loc_set_labels df m rxn c) as [Hidx Hcol].
  rewrite IH; [|by apply loc_set_shape|by rewrite Hcol| |done].
  2: { intros m' c' Hin. rewrite Hidx. eapply Hmets. by right. }
  rewrite loc_set_at; [|done|eapply Hmets; by left|done].
  cbn [PyDict.get]. destruct (decide (rxn' = rxn)) as [->|Hne].
  - destruct (decide (met' = m)) as [->|Hmet].
    + apply dict_get_None in Hm. rewrite Hm. simpl. by rewrite decide_True.
    + rewrite (decide_False (P := met' = m ∧ rxn = rxn)) by tauto. done.
  - rewrite decide_False; tauto.
Qed.

Lemma fill_frame_shape (records : list (string * list (string * Z))) df :
  well_shaped df → well_shaped (fill_frame df records).
Proof.
  unfold fill_frame, PyDict.items. revert df.
  induction records as [|[r stoich] records IH]; intros df Hdf; simpl; [done|].
  by apply IH, fill_record_shape.
Qed.

Lemma fill_frame_at (records : PyDict.dict string (PyDict.dict string Z))
    df met rxn :
  well_shaped df →
  NoDup records.*1 →
  (∀ r stoich, (r, stoich) ∈ records →
     is_Some (label_pos (columns df) r) ∧ NoDup stoich.*1 ∧
     ∀ m c, (m, c) ∈ stoich → is_Some (label_pos (index df) m)) →
  frame_at (fill_frame df records) met rxn =
    match PyDict.get records rxn with
    | Some stoich =>
        from_option Some (frame_at df met rxn) (PyDict.get stoich met)
    | None => frame_at df met rxn
    end.
Proof.
  unfold fill_frame, PyDict.items. revert df.
  induction records as [|[r stoich] records IH]; intros df Hdf Hnd Hrec;
    [done|].
  rewrite fmap_cons in Hnd. apply NoDup_cons in Hnd as [Hr Hnd].
  cbn [fst] in Hr. cbn [fold_left fst snd].
  destruct (fill_record_labels stoich df r) as [Hidx Hcol].
  destruct (Hrec r stoich) as (Hrc & Hrn & Hrm); [by left|].
  rewrite IH; [|by apply fill_record_shape|done|].
  2: { intros r' stoich' Hin. rewrite Hidx, Hcol. apply Hrec. by right. }
  rewrite fill_record_at by done. cbn [PyDict.get].
  destruct (decide (rxn = r)) as [->|Hne].
  - apply dict_get_None in Hr. by rewrite Hr.
  - done.
Qed.

Lemma zero_frame_shape idx cols : well_shaped (zero_frame idx cols).
Proof.
  split; simpl; [by rewrite length_replicate|].
  apply Forall_forall. intros row [-> _]%elem_of_replicate.
  by rewrite length_replicate.
Qed.

Lemma zero_frame_at idx cols met rxn :
  met ∈ idx → rxn ∈ cols → frame_at (zero_frame idx cols) met rxn = Some 0.
Proof.
  intros [i Hi]%label_pos_is_Some [j Hj]%label_pos_is_Some.
  unfold frame_at, cell. simpl. rewrite Hi, Hj. simpl.
  apply label_pos_lookup, lookup_lt_Some in Hi, Hj.
  rewrite lookup_replicate_2 by done. simpl. by rewrite lookup_replicate_2.
Qed.

End frame.

(** ** Reachable states of the build *)

Section reachable.
Context (get_equations : string → option string).
Implicit Types (st : build_state) (done ids : list string).

Lemma to_list_app (a b : string) :
  list_ascii_of_string (a +:+ b)
    = list_ascii_of_string a ++ list_ascii_of_string b.
Proof. induction a as [|c a IH]; simpl; [done|]. by rewrite <- IH. Qed.

Lemma suffix_inj (a b t : string) : a +:+ t = b +:+ t → a = b.
Proof.
  intros Heq. apply (f_equal list_ascii_of_string) in Heq.
  rewrite !to_list_app in Heq. apply app_inj_2 in Heq as [Heq _]; [|done].
  rewrite <- (string_of_list_ascii_of_string a),
    <- (string_of_list_ascii_of_string b). by rewrite Heq.
Qed.

Lemma suffix_differ (a b : string) : a +:+ "_f" ≠ b +:+ "_r".
Proof.
  intros Heq. apply (f_equal list_ascii_of_string) in Heq.
  rewrite !to_list_app in Heq. by apply app_inj_2 in Heq as [_ ?].
Qed.

Lemma split_directions_distinct st st' rxn_id eqn :
  records_distinct st →
  split_directions st rxn_id eqn = Ok st' →
  records_distinct st'.
Proof.
  unfold split_directions. intros Hst.
  destruct (parse_equation eqn) as [[ms cs]|]; simpl; [|done].
  intros [= <-] k stoich.
  destruct (PyStr.contains "<=>" eqn), ms; simpl;
    repeat (intros [Hin|[= ? ->]]%dict_set_elem_of;
            [revert Hin | apply of_pairs_NoDup]);
    apply Hst.
Qed.

Lemma process_reactions_distinct ids st st' :
  records_distinct st →
  process_reactions get_equations st ids = Ok st' →
  records_distinct st'.
Proof.
  revert st. induction ids as [|rxn_id ids IH]; intros st Hst; simpl.
  - by intros [= <-].
  - destruct (get_equations rxn_id) as [[|c eqn]|]; try by apply IH.
    destruct (split_directions st rxn_id (String c eqn)) as [st1|] eqn:Hs;
      simpl; [|done].
    apply IH. by eapply split_directions_distinct.
Qed.

(** A reaction without a usable equation leaves nothing to account
    for. *)
Lemma state_of_skip done st rxn_id :
  (∀ eqn, get_equations rxn_id = Some eqn → eqn = "") →
  state_of get_equations done st →
  state_of get_equations (done ++ [rxn_id]) st.
Proof.
  intros Hskip (Hrec & Hmet & Hkey). split_and!.
  - intros id eqn ms cs [Hin|Hin%list_elem_of_singleton]%elem_of_app Hp.
    + by apply (Hrec id eqn).
    + subst id. destruct Hp as (Hg & Hne & _). by apply Hskip in Hg.
  - intros m (id & eqn & ms & cs & Hin & Hp)%Hmet.
    exists id, eqn, ms, cs. split; [|done]. apply elem_of_app. by left.
  - intros k (id & eqn & ms & cs & Hin & Hp)%Hkey.
    exists id, eqn, ms, cs. split; [|done]. apply elem_of_app. by left.
Qed.

Lemma state_of_step done st st' rxn_id eqn :
  get_equations rxn_id = Some eqn → eqn ≠ "" →
  split_directions st rxn_id eqn = Ok st' →
  state_of get_equations done st →
  state_of get_equations (done ++ [rxn_id]) st'.
Proof.
  intros Hg Hne Hs (Hrec & Hmet & Hkey).
  unfold split_directions in Hs.
  destruct (parse_equation eqn) as [[ms cs]|] eqn:Hp; simpl in Hs; [|done].
  pose proof (parse_equation_output _ _ _ Hp) as (Hlen & Hnd & _).
  assert (PyDict.of_pairs (zip ms cs) = zip ms cs) as Hfwd
    by by apply of_pairs_zip.
  assert (negated ms cs = zip ms (Z.opp <$> cs)) as Hneg.
  { unfold negated. rewrite zip_negated. apply of_pairs_zip; [done|].
    by rewrite length_fmap. }
  rewrite Hfwd, Hneg in Hs. clear Hfwd Hneg.
  assert (parsed get_equations rxn_id eqn ms cs) as Hparsed by done.
  pose proof (directed_ids_differ rxn_id) as Hfr.
  assert (∀ m, m ∈ all_metabolites st → m ∈ all_metabolites st') as Hgrow.
  { intros m Hm. injection Hs as <-.
    destruct (PyStr.contains "<=>" eqn), ms; cbn [all_metabolites];
      repeat apply elem_of_union_l; done. }
  assert (∀ id k, id ≠ rxn_id →
            (k = id +:+ "_f" ∨ k = id +:+ "_r") →
            PyDict.get (reaction_stoich st') k = PyDict.get (reaction_stoich st) k)
    as Hother.
  { intros id k Hid Hk. injection Hs as <-.
    assert (rxn_id +:+ "_f" ≠ k ∧ rxn_id +:+ "_r" ≠ k) as [Hkf Hkr].
    { destruct Hk as [-> | ->]; split; intros Heq;
        first [ by apply suffix_inj in Heq
              | by apply suffix_differ in Heq
              | by apply symmetry, suffix_differ in Heq ]. }
    destruct (PyStr.contains "<=>" eqn), ms; cbn [reaction_stoich];
      by rewrite ?dict_get_set_ne. }
  split_and!.
  - intros id eqn' ms' cs' Hin Hp'.
    destruct (decide (id = rxn_id)) as [->|Hid].
    + destruct Hp' as (Hg' & _ & Hp'). rewrite Hg in Hg'.
      injection Hg' as <-. rewrite Hp in Hp'. injection Hp' as <- <-.
      injection Hs as <-. split_and!.
      * intros Hms. destruct ms as [|m ms0]; [done|].
        destruct (PyStr.contains "<=>" eqn); cbn [reaction_stoich];
          by rewrite ?(dict_get_set_ne _ (rxn_id +:+ "_r")), dict_get_set_eq.
      * intros ->. cbn [reaction_stoich]. by rewrite dict_get_set_eq.
      * intros m Hm. destruct ms as [|m0 ms0]; [by apply elem_of_nil in Hm|].
        destruct (PyStr.contains "<=>" eqn); cbn [all_metabolites];
          [apply elem_of_union_l|]; by apply elem_of_union_r, elem_of_list_to_set.
    + apply elem_of_app in Hin as [Hin|Hin%list_elem_of_singleton]; [|done].
      destruct (Hrec id eqn' ms' cs' Hin Hp') as (Hf & Hr & Hm).
      rewrite !(Hother id) by auto. split_and!; auto.
  - intros m Hm.
    assert (m ∈ all_metabolites st ∨ m ∈ ms) as [Hold|Hnew].
    { injection Hs as <-.
      destruct (PyStr.contains "<=>" eqn), ms; cbn [all_metabolites] in Hm;
        rewrite ?elem_of_union, ?elem_of_list_to_set in Hm; tauto. }
    + apply Hmet in Hold as (id & eqn' & ms' & cs' & Hin & Hp').
      exists id, eqn', ms', cs'. split; [|done]. apply elem_of_app. by left.
    + exists rxn_id, eqn, ms, cs. split_and!; try done.
      apply elem_of_app. right. by apply list_elem_of_singleton.
  - intros k Hk.
    assert (k ∈ PyDict.keys (reaction_stoich st) ∨
            (k = rxn_id +:+ "_f" ∧ ms ≠ []) ∨
            (k = rxn_id +:+ "_r" ∧ PyStr.contains "<=>" eqn = true))
      as [Hold|Hnew].
    { injection Hs as <-. unfold PyDict.keys in *.
      destruct (PyStr.contains "<=>" eqn), ms; cbn [reaction_stoich] in Hk;
        rewrite ?dict_set_keys_elem_of in Hk; intuition (subst; auto; done). }
    + apply Hkey in Hold as (id & eqn' & ms' & cs' & Hin & Hp').
      exists id, eqn', ms', cs'. split; [|done]. apply elem_of_app. by left.
    + exists rxn_id, eqn, ms, cs. split_and!; try done.
      apply elem_of_app. right. by apply list_elem_of_singleton.
Qed.

Lemma process_reactions_state_of ids done st st' :
  state_of get_equations done st →
  process_reactions get_equations st ids = Ok st' →
  state_of get_equations (done ++ ids) st'.
Proof.
  revert done st. induction ids as [|rxn_id ids IH]; intros done st Hst; simpl.
  - intros [= <-]. by rewrite app_nil_r.
  - rewrite (cons_middle rxn_id done ids), app_assoc.
    destruct (get_equations rxn_id) as [[|c eqn]|] eqn:Hg.
    + apply IH, state_of_skip; [|done].
      intros e He. rewrite Hg in He. by injection He.
    + destruct (split_directions st rxn_id (String c eqn)) as [st1|] eqn:Hs;
        simpl; [|done].
      apply IH. by eapply state_of_step.
    + apply IH, state_of_skip; [|done]. intros e He. by rewrite Hg in He.
Qed.

Lemma initial_state_of : state_of get_equations [] initial_state.
Proof.
  split_and!.
  - by intros ? ? ? ? ?%elem_of_nil.
  - by intros ? ?%elem_of_empty.
  - by intros ? ?%elem_of_nil.
Qed.

End reachable.

(** ** The cells of the assembled matrix *)

Section cells.
Context (get_equations : string → option string).
Implicit Types (st : build_state) (ids : list string) (df : DataFrame).

Lemma build_inv ids df :
  build_stoich_matrix get_equations ids = Ok df →
  ∃ st, process_reactions get_equations initial_state ids = Ok st ∧
        df = assemble st.
Proof.
  unfold build_stoich_matrix.
  destruct (process_reactions get_equations initial_state ids) as [st|];
    simpl; [|done].
  intros [= <-]. by exists st.
Qed.

Lemma assemble_labels st :
  index (assemble st) = sorted (all_metabolites st) ∧
  columns (assemble st) = PyDict.keys (reaction_stoich st).
Proof.
  unfold assemble.
  by destruct (fill_frame_labels (reaction_stoich st)
    (zero_frame (sorted (all_metabolites st)) (PyDict.keys (reaction_stoich st))))
    as [-> ->].
Qed.

Lemma assemble_shape st : well_shaped (assemble st).
Proof. apply fill_frame_shape, zero_frame_shape. Qed.

Lemma assembled_at ids st rxn stoich met :
  process_reactions get_equations initial_state ids = Ok st →
  PyDict.get (reaction_stoich st) rxn = Some stoich →
  met ∈ all_metabolites st →
  frame_at (assemble st) met rxn = Some (PyDict.get_default stoich met 0).
Proof.
  intros Hp Hget Hmet. unfold assemble.
  assert (rxn ∈ PyDict.keys (reaction_stoich st)) as Hrxn.
  { apply dict_get_is_Some. by eexists. }
  rewrite fill_frame_at.
  - rewrite Hget, zero_frame_at; [|by apply elem_of_sorted|done].
    unfold PyDict.get_default. by destruct (PyDict.get stoich met).
  - apply zero_frame_shape.
  - eapply process_reactions_NoDup; [|exact Hp]. constructor.
  - intros r stoich' Hin. simpl. split_and!.
    + apply label_pos_is_Some. unfold PyDict.keys.
      apply list_elem_of_fmap. by exists (r, stoich').
    + eapply (process_reactions_distinct get_equations ids initial_state);
        [|exact Hp|exact Hin].
      by intros ? ? ?%elem_of_nil.
    + intros m c Hm. apply label_pos_is_Some, elem_of_sorted.
      eapply (process_reactions_covered get_equations ids initial_state);
        [|exact Hp|exact Hin|exact Hm].
      by intros ? ? ? ? ?%elem_of_nil.
Qed.

Lemma get_zip_negated (ms : list string) (cs : list Z) (m : string) :
  PyDict.get_default (zip ms (Z.opp <$> cs)) m 0
    = - PyDict.get_default (zip ms cs) m 0.
Proof.
  unfold PyDict.get_default. revert cs.
  induction ms as [|m0 ms IH]; intros [|c cs]; csimpl; try done.
  case_decide; [done | apply IH].
Qed.

Lemma listed_coefficient (ms : list string) (cs : list Z) (m : string) :
  length ms = length cs → Forall (λ c, c ≠ 0) cs → m ∈ ms →
  PyDict.get_default (zip ms cs) m 0 ≠ 0.
Proof.
  intros Hlen Hnz Hm. unfold PyDict.get_default.
  destruct (PyDict.get (zip ms cs) m) as [c|] eqn:Hg.
  - apply dict_get_elem_of, elem_of_zip_r in Hg.
    by apply (proj1 (Forall_forall _ _) Hnz).
  - apply dict_get_None in Hg. rewrite fst_zip in Hg by lia. done.
Qed.

Lemma reached ids st :
  process_reactions get_equations initial_state ids = Ok st →
  state_of get_equations ids st.
Proof.
  intros Hp.
  apply (process_reactions_state_of get_equations ids [] initial_state);
    [apply initial_state_of | done].
Qed.

(** X10.  Cells of the assembled matrix: for a listed reaction whose
    equation parses, every row of the forward column (present when the
    parse has a metabolite) holds the parsed coefficient of the row's
    metabolite, 0 when the parse does not list it, and every row of the
    reverse column (present when the equation has ["<=>"]) holds the
    negated value; so the reverse column is the negation of the forward
    column, and it is all zeros when the parse has no metabolite. *)
Theorem assembled_cells (reaction_ids : list string) (df : DataFrame)
    (rxn_id eqn : string) (mets : list string) (coeffs : list Z) :
  build_stoich_matrix get_equations reaction_ids = Ok df →
  rxn_id ∈ reaction_ids →
  parsed get_equations rxn_id eqn mets coeffs →
  ∀ met, met ∈ index df →
    (mets ≠ [] →
     frame_at df met (rxn_id +:+ "_f")
       = Some (coefficient_in mets coeffs met)) ∧
    (PyStr.contains "<=>" eqn = true →
     frame_at df met (rxn_id +:+ "_r")
       = Some (- coefficient_in mets coeffs met)).
Proof.
  intros (st & Hp & ->)%build_inv Hin Hparsed met Hmet.
  destruct (assemble_labels st) as [Hidx _]. rewrite Hidx in Hmet.
  apply elem_of_sorted in Hmet.
  destruct (reached _ _ Hp) as (Hrec & _ & _).
  destruct (Hrec _ _ _ _ Hin Hparsed) as (Hf & Hr & _).
  unfold coefficient_in. split.
  - intros Hne. by rewrite (assembled_at _ _ _ _ _ Hp (Hf Hne) Hmet).
  - intros Hrev.
    by rewrite (assembled_at _ _ _ _ _ Hp (Hr Hrev) Hmet), get_zip_negated.
Qed.

(** X11.  Shape and labels of the assembled matrix: one row of cells per
    row label and one cell per column label in each row; the row labels
    are in ascending order without repetition and are exactly the
    metabolites of the parses of the listed reactions; the column labels
    are without repetition and are exactly the forward keys of the
    reactions whose parse has a metabolite and the reverse keys of the
    reactions whose equation has ["<=>"]. *)
Theorem assembled_shape (reaction_ids : list string) (df : DataFrame) :
  build_stoich_matrix get_equations reaction_ids = Ok df →
  well_shaped df ∧
  Sorted String.le (index df) ∧ NoDup (index df) ∧ NoDup (columns df) ∧
  (∀ m, m ∈ index df ↔
        ∃ rxn_id eqn mets coeffs,
          rxn_id ∈ reaction_ids ∧
          parsed get_equations rxn_id eqn mets coeffs ∧ m ∈ mets) ∧
  (∀ k, k ∈ columns df ↔
        ∃ rxn_id eqn mets coeffs,
          rxn_id ∈ reaction_ids ∧
          parsed get_equations rxn_id eqn mets coeffs ∧
          ((k = rxn_id +:+ "_f" ∧ mets ≠ []) ∨
           (k = rxn_id +:+ "_r" ∧ PyStr.contains "<=>" eqn = true))).
Proof.
  intros Hb. pose proof (assembled_labels_NoDup _ _ _ Hb) as [Hni Hnc].
  apply build_inv in Hb as (st & Hp & ->).
  destruct (assemble_labels st) as [Hidx Hcol].
  destruct (reached _ _ Hp) as (Hrec & Hmet & Hkey).
  split_and!; try done.
  - apply assemble_shape.
  - rewrite Hidx. apply (Sorted_merge_sort String.le).
  - intros m. rewrite Hidx, elem_of_sorted. split; [apply Hmet|].
    intros (id & eqn & ms & cs & Hin & Hparsed & Hm).
    by apply (Hrec _ _ _ _ Hin Hparsed).
  - intros k. rewrite Hcol. split; [apply Hkey|].
    intros (id & eqn & ms & cs & Hin & Hparsed & Hk).
    destruct (Hrec _ _ _ _ Hin Hparsed) as (Hf & Hr & _).
    apply dict_get_is_Some.
    destruct Hk as [[-> Hne]|[-> Hrev]]; eexists; eauto.
Qed.

(** X12.  No row of the assembled matrix is all zeros, and a column is
    all zeros only if it is the reverse column of a listed reaction whose
    equation has ["<=>"] and parses to no metabolite. *)
Theorem assembled_nonzero (reaction_ids : list string) (df : DataFrame) :
  build_stoich_matrix get_equations reaction_ids = Ok df →
  (∀ met, met ∈ index df →
     ∃ rxn c, rxn ∈ columns df ∧ frame_at df met rxn = Some c ∧ c ≠ 0) ∧
  (∀ k, k ∈ columns df →
     (∃ met c, met ∈ index df ∧ frame_at df met k = Some c ∧ c ≠ 0) ∨
     (∃ rxn_id eqn,
        rxn_id ∈ reaction_ids ∧ parsed get_equations rxn_id eqn [] [] ∧
        PyStr.contains "<=>" eqn = true ∧ k = rxn_id +:+ "_r")).
Proof.
  intros (st & Hp & ->)%build_inv.
  destruct (assemble_labels st) as [Hidx Hcol].
  destruct (reached _ _ Hp) as (Hrec & Hmet & Hkey).
  assert (∀ id eqn ms cs m,
            id ∈ reaction_ids → parsed get_equations id eqn ms cs → m ∈ ms →
            m ∈ index (assemble st) ∧
            (id +:+ "_f" ∈ columns (assemble st) ∧
             ∃ c, frame_at (assemble st) m (id +:+ "_f") = Some c ∧ c ≠ 0) ∧
            (PyStr.contains "<=>" eqn = true →
             ∃ c, frame_at (assemble st) m (id +:+ "_r") = Some c ∧ c ≠ 0))
    as Hcell.
  { intros id eqn ms cs m Hin Hparsed Hm.
    destruct (Hrec _ _ _ _ Hin Hparsed) as (Hf & Hr & Ham).
    pose proof Hparsed as (_ & _ & Hpe).
    apply parse_equation_output in Hpe as (Hlen & _ & Hnz).
    assert (ms ≠ []) as Hne by (intros ->; by apply elem_of_nil in Hm).
    pose proof (listed_coefficient ms cs m Hlen Hnz Hm) as Hc.
    split_and!.
    - rewrite Hidx. by apply elem_of_sorted, Ham.
    - rewrite Hcol. apply dict_get_is_Some. eexists. by apply Hf.
    - eexists. split; [by apply (assembled_at _ _ _ _ _ Hp (Hf Hne)), Ham|done].
    - intros Hrev. eexists.
      split; [by apply (assembled_at _ _ _ _ _ Hp (Hr Hrev)), Ham|].
      rewrite get_zip_negated. lia. }
  split.
  - intros met Hin. rewrite Hidx in Hin. apply elem_of_sorted, Hmet in Hin
      as (id & eqn & ms & cs & Hid & Hparsed & Hm).
    destruct (Hcell _ _ _ _ _ Hid Hparsed Hm) as (_ & (Hk & c & Hc & Hnz) & _).
    by exists (id +:+ "_f"), c.
  - intros k Hk. rewrite Hcol in Hk.
    apply Hkey in Hk as (id & eqn & ms & cs & Hid & Hparsed & Hk).
    destruct ms as [|m ms].
    + destruct Hk as [[_ ?]|[-> Hrev]]; [done|]. right.
      pose proof Hparsed as (_ & _ & Hpe).
      apply parse_equation_output in Hpe as (Hlen & _).
      destruct cs; [|done]. by exists id, eqn.
    + left. assert (m ∈ m :: ms) as Hm by left.
      destruct (Hcell _ _ _ _ _ Hid Hparsed Hm)
        as (Hi & (_ & c & Hc & Hnz) & Hr).
      destruct Hk as [[-> _]|[-> Hrev]].
      * by exists m, c.
      * destruct (Hr Hrev) as (c' & Hc' & Hnz'). by exists m, c'.
Qed.

End cells.

Lemma two_reactions_build :
  build_stoich_matrix two_reactions ["R00001"; "R00002"]
    = Ok two_reactions_frame.
Proof. by vm_compute. Qed.

Lemma two_reactions_parsed :
  parsed two_reactions "R00001" "C00001 + C00002 <=> C00003"
    ["C00001"; "C00002"; "C00003"] [-1; -1; 1].
Proof. by split_and!. Qed.

Lemma assembled_cells_witness :
  frame_at two_reactions_frame "C00003" "R00001_f" = Some 1 ∧
  frame_at two_reactions_frame "C00003" "R00001_r" = Some (-1).
Proof.
  destruct (assembled_cells two_reactions ["R00001"; "R00002"]
              two_reactions_frame "R00001" "C00001 + C00002 <=> C00003"
              ["C00001"; "C00002"; "C00003"] [-1; -1; 1]
              two_reactions_build) with (met := "C00003") as [Hf Hr].
  - apply (bool_decide_unpack _). by vm_compute.
  - exact two_reactions_parsed.
  - apply (bool_decide_unpack _). by vm_compute.
  - split; [apply Hf; discriminate | apply Hr; reflexivity].
Defined.

Lemma assembled_shape_witness :
  well_shaped two_reactions_frame ∧ Sorted String.le (index two_reactions_frame).
Proof.
  destruct (assembled_shape two_reactions ["R00001"; "R00002"]
              two_reactions_frame two_reactions_build) as (Hw & Hs & _).
  by split.
Defined.

Lemma assembled_nonzero_witness :
  ∃ rxn c, rxn ∈ columns two_reactions_frame ∧
           frame_at two_reactions_frame "C00002" rxn = Some c ∧ c ≠ 0.
Proof.
  destruct (assembled_nonzero two_reactions ["R00001"; "R00002"]
              two_reactions_frame two_reactions_build) as [Hrow _].
  apply Hrow. apply (bool_decide_unpack _). by vm_compute.
Defined.

(** ** load_data.py: index lists, degree vectors, projection *)

Lemma index_map_NoDup (ids : list string) :
  NoDup ids → index_map ids = (λ p, (p.2, p.1)) <$> enumerate ids.
Proof.
  intros Hnd. unfold index_map. apply of_pairs_NoDup_id.
  rewrite <- list_fmap_compose. unfold enumerate. rewrite fmap_imap.
  rewrite (imap_ext _ (const id)) by done.
  by rewrite imap_const, list_fmap_id.
Qed.

(** X13.  For matrix labels without repetition the forward map lists the
    labels in matrix order and the index lists [mets] and [rxns] are
    [0, 1, ..., n-1]. *)
Theorem index_lists_are_ranges (metabolites reactions : list string) :
  NoDup metabolites → NoDup reactions →
  PyDict.keys (met_map metabolites) = metabolites ∧
  mets metabolites = seq 0 (length metabolites) ∧
  PyDict.keys (rxn_map reactions) = reactions ∧
  rxns reactions = seq 0 (length reactions).
Proof.
  assert (∀ ids, NoDup ids →
            PyDict.keys (index_map ids) = ids ∧
            PyDict.values (index_map ids) = seq 0 (length ids)) as Hgen.
  { intros ids Hnd. unfold PyDict.keys, PyDict.values.
    rewrite (index_map_NoDup _ Hnd), <- !list_fmap_compose.
    unfold enumerate. rewrite !fmap_imap. split.
    - rewrite (imap_ext _ (const id)) by done.
      by rewrite imap_const, list_fmap_id.
    - rewrite (imap_ext _ (λ j _, id j)) by done.
      by rewrite imap_seq_0, list_fmap_id. }
  intros Hm Hr. unfold mets, rxns, met_map, rxn_map.
  destruct (Hgen _ Hm) as [-> ->]. by destruct (Hgen _ Hr) as [-> ->].
Qed.

Lemma index_lists_are_ranges_witness :
  mets ["C00001"; "C00002"; "C00003"] = [0; 1; 2]%nat ∧
  rxns ["R00001_f"; "R00001_r"] = [0; 1]%nat.
Proof.
  destruct (index_lists_are_ranges ["C00001"; "C00002"; "C00003"]
              ["R00001_f"; "R00001_r"]) as (_ & Hm & _ & Hr).
  - apply (bool_decide_unpack _). by vm_compute.
  - apply (bool_decide_unpack _). by vm_compute.
  - by split.
Defined.

Lemma count_signs (row : list Z) :
  count_in_row negative row + count_in_row positive row
    = count_in_row is_nonzero row.
Proof.
  unfold count_in_row. induction row as [|x row IH]; [done|].
  assert (negative x = true ↔ x < 0) as Hn by apply Z.ltb_lt.
  assert (positive x = true ↔ 0 < x) as Hp by apply Z.ltb_lt.
  assert (is_nonzero x = true ↔ x ≠ 0) as Hz.
  { unfold is_nonzero. by rewrite negb_true_iff, Z.eqb_neq. }
  rewrite !filter_cons.
  destruct (decide (negative x = true)) as [H1|H1],
    (decide (positive x = true)) as [H2|H2],
    (decide (is_nonzero x = true)) as [H3|H3];
    rewrite ?length_cons; rewrite ?Hn in H1; rewrite ?Hp in H2;
    rewrite ?Hz in H3; lia.
Qed.

(** X14.  The degree vectors as the code computes them: each has one
    entry per row of the matrix; entry [i] of [sumRxnVec] is the number
    of negative entries of row [i], entry [i] of [sumProdVec] the number
    of positive entries, and the two add up to the number of non-zero
    entries of the row. *)
Theorem degree_vectors_by_row (stoich_matrix : matrix) (i : nat)
    (row : list Z) :
  stoich_matrix !! i = Some row →
  length (sumRxnVec stoich_matrix) = length stoich_matrix ∧
  length (sumProdVec stoich_matrix) = length stoich_matrix ∧
  sumRxnVec stoich_matrix !! i = Some (count_in_row negative row) ∧
  sumProdVec stoich_matrix !! i = Some (count_in_row positive row) ∧
  count_in_row negative row + count_in_row positive row
    = count_in_row is_nonzero row.
Proof.
  intros Hrow. split_and!.
  - apply length_sumRxnVec.
  - unfold sumProdVec, sum_axis1, prodMat, nonzero_mask, pi, clip_min.
    by rewrite !length_fmap.
  - by apply sumRxnVec_row.
  - by apply sumProdVec_row.
  - apply count_signs.
Qed.

Lemma degree_vectors_by_row_witness :
  sumRxnVec [[-1; 1; 0]; [-2; -1; 3]] !! 1%nat = Some 2 ∧
  sumProdVec [[-1; 1; 0]; [-2; -1; 3]] !! 1%nat = Some 1.
Proof.
  destruct (degree_vectors_by_row [[-1; 1; 0]; [-2; -1; 3]] 1 [-2; -1; 3]
              eq_refl) as (_ & _ & Hr & Hp & _).
  by split.
Defined.

(** X15.  Projection and inverse map compose to the identity on what is
    present: every projected index is a row position of the matrix, and
    looking the projected indices up in the inverse map gives back, in
    order, exactly the identifiers of the list that are rows of the
    matrix. *)
Theorem projection_inverts (metabolites ids : list string)
    (idxs : list nat) :
  Currency metabolites ids = Ok idxs →
  Forall (λ idx, (idx < length metabolites)%nat) idxs ∧
  PyDict.get (inv_met_map metabolites) <$> idxs
    = Some <$> filter (λ id, id ∈ metabolites) ids.
Proof.
  unfold Currency. rewrite project_omap. intros [= <-].
  pose proof (omap_get_present ids metabolites) as Hall.
  unfold inv_met_map, met_map.
  induction Hall as [|id idx l k Hget _ [IH1 IH2]]; [by split|].
  split.
  - constructor; [|done].
    by apply index_map_get, lookup_lt_Some in Hget.
  - rewrite !fmap_cons, IH2. f_equal. by apply invert_map_get.
Qed.

Lemma projection_inverts_witness :
  PyDict.get (inv_met_map ["C00001"; "C00002"; "C00003"]) <$> [2; 0]%nat
    = Some <$> filter (λ id, id ∈ ["C00001"; "C00002"; "C00003"])
                 ["C00003"; "C99999"; "C00001"].
Proof.
  apply (projection_inverts ["C00001"; "C00002"; "C00003"]
           ["C00003"; "C99999"; "C00001"] [2; 0]%nat).
  reflexivity.
Defined.

(** ** get_rxn_names *)

Section names.
Context (kegg_get : string → option string).
Implicit Types (st : names_state) (ids seen : list string).

Lemma str_length_app (a b : string) :
  String.length (a +:+ b) = (String.length a + String.length b)%nat.
Proof. induction a as [|c a IH]; simpl; [done|]. by rewrite IH. Qed.

Lemma endswith_app (t a : string) : PyText.endswith t (a +:+ t) = true.
Proof.
  induction a as [|c a IH]; simpl.
  - destruct t; simpl; [done|]. by rewrite Ascii.eqb_refl, String.eqb_refl.
  - rewrite IH. apply orb_true_r.
Qed.

Lemma drop_last_app (t a : string) :
  PyText.drop_last (String.length t) (a +:+ t) = a.
Proof.
  unfold PyText.drop_last. rewrite str_length_app.
  replace (String.length a + String.length t - String.length t)%nat
    with (String.length a) by lia.
  induction a as [|c a IH]; simpl; [by destruct t|]. by rewrite IH.
Qed.

Lemma first_seen_fold (l : list string) : first_seen l = fold_left add_key l [].
Proof. rewrite fold_add_key by constructor. done. Qed.

Lemma first_seen_snoc (l : list string) (x : string) :
  first_seen (l ++ [x]) = add_key (first_seen l) x.
Proof. by rewrite !first_seen_fold, fold_left_app. Qed.

Lemma first_seen_NoDup (l : list string) : NoDup (first_seen l).
Proof.
  unfold first_seen. rewrite reverse_Permutation. apply NoDup_remove_dups.
Qed.

Lemma elem_of_first_seen (l : list string) (x : string) :
  x ∈ first_seen l ↔ x ∈ l.
Proof.
  unfold first_seen.
  by rewrite elem_of_reverse, elem_of_remove_dups, elem_of_reverse.
Qed.

(** What the loop of [get_rxn_names] keeps true after the ids [seen]. *)
Lemma names_step_inv st seen rxn_id :
  PyDict.keys (base_eqn_cache st) = fetched st →
  fetched st = first_seen (base_id <$> seen) →
  (∀ b v, PyDict.get (base_eqn_cache st) b = Some v →
          v = fetch_equation kegg_get b) →
  PyDict.keys (rxn_string_dict st) = first_seen seen →
  (∀ id v, PyDict.get (rxn_string_dict st) id = Some v →
           v = fetch_equation kegg_get (base_id id)) →
  ∃ st',
    names_step kegg_get st rxn_id = Ok st' ∧
    PyDict.keys (base_eqn_cache st') = fetched st' ∧
    fetched st' = first_seen (base_id <$> (seen ++ [rxn_id])) ∧
    (∀ b v, PyDict.get (base_eqn_cache st') b = Some v →
            v = fetch_equation kegg_get b) ∧
    PyDict.keys (rxn_string_dict st') = first_seen (seen ++ [rxn_id]) ∧
    (∀ id v, PyDict.get (rxn_string_dict st') id = Some v →
             v = fetch_equation kegg_get (base_id id)).
Proof.
  intros Hkeys Hfetched Hcache Hdkeys Hdict.
  unfold names_step, PyDict.contains, PyDict.getitem.
  rewrite fmap_app. change (base_id <$> [rxn_id]) with [base_id rxn_id].
  rewrite !first_seen_snoc, <- Hfetched, <- Hdkeys. simpl.
  destruct (PyDict.get (base_eqn_cache st) (base_id rxn_id)) as [v|] eqn:Hg.
  - rewrite Hg. simpl. eexists. split; [done|]. simpl.
    unfold PyDict.keys in *. rewrite dict_set_add_key.
    split_and!; try done.
    + unfold add_key. rewrite decide_True; [done|].
      rewrite <- Hkeys. apply dict_get_is_Some. by eexists.
    + intros id v'. rewrite dict_get_set. case_decide; [|apply Hdict].
      intros [= <-]. subst id. by apply Hcache.
  - simpl. rewrite dict_get_set_eq. simpl. eexists. split; [done|]. simpl.
    unfold PyDict.keys in *. rewrite !dict_set_add_key, Hkeys.
    assert (base_id rxn_id ∉ fetched st) as Hnew.
    { rewrite <- Hkeys. by apply dict_get_None. }
    split_and!; try done.
    + unfold add_key. by rewrite decide_False.
    + unfold add_key. by rewrite decide_False.
    + intros b v. rewrite dict_get_set. case_decide; [|apply Hcache].
      intros [= <-]. by subst b.
    + intros id v. rewrite dict_get_set. case_decide; [|apply Hdict].
      intros [= <-]. by subst id.
Qed.

Lemma names_loop_inv ids st seen :
  PyDict.keys (base_eqn_cache st) = fetched st →
  fetched st = first_seen (base_id <$> seen) →
  (∀ b v, PyDict.get (base_eqn_cache st) b = Some v →
          v = fetch_equation kegg_get b) →
  PyDict.keys (rxn_string_dict st) = first_seen seen →
  (∀ id v, PyDict.get (rxn_string_dict st) id = Some v →
           v = fetch_equation kegg_get (base_id id)) →
  ∃ st',
    names_loop kegg_get st ids = Ok st' ∧
    fetched st' = first_seen (base_id <$> (seen ++ ids)) ∧
    PyDict.keys (rxn_string_dict st') = first_seen (seen ++ ids) ∧
    (∀ id v, PyDict.get (rxn_string_dict st') id = Some v →
             v = fetch_equation kegg_get (base_id id)).
Proof.
  revert st seen. induction ids as [|rxn_id ids IH];
    intros st seen H1 H2 H3 H4 H5.
  - exists st. rewrite app_nil_r. by split_and!.
  - destruct (names_step_inv st seen rxn_id H1 H2 H3 H4 H5)
      as (st1 & Hs & H1' & H2' & H3' & H4' & H5').
    destruct (IH st1 (seen ++ [rxn_id]) H1' H2' H3' H4' H5')
      as (st' & Hl & Hr).
    exists st'. simpl. rewrite Hs. simpl.
    by rewrite (cons_middle rxn_id seen ids), app_assoc.
Qed.

Lemma names_loop_initial ids :
  ∃ st',
    names_loop kegg_get
      {| rxn_string_dict := []; base_eqn_cache := []; fetched := [] |} ids
      = Ok st' ∧
    fetched st' = first_seen (base_id <$> ids) ∧
    PyDict.keys (rxn_string_dict st') = first_seen ids ∧
    (∀ id v, PyDict.get (rxn_string_dict st') id = Some v →
             v = fetch_equation kegg_get (base_id id)).
Proof. by apply (names_loop_inv ids _ []). Qed.

End names.

Lemma base_id_suffixed (rxn_id : string) :
  base_id (rxn_id +:+ "_f") = rxn_id ∧ base_id (rxn_id +:+ "_r") = rxn_id.
Proof.
  unfold base_id. split.
  - rewrite endswith_app. apply (drop_last_app "_f").
  - rewrite endswith_app, orb_true_r. apply (drop_last_app "_r").
Qed.

(** X16.  [base_id] undoes the direction suffix that the splitter adds:
    the base of [rxn_id_f] and of [rxn_id_r] is [rxn_id]; an identifier
    that ends in neither suffix is its own base. *)
Theorem base_id_of_directed (rxn_id : string) :
  base_id (rxn_id +:+ "_f") = rxn_id ∧
  base_id (rxn_id +:+ "_r") = rxn_id ∧
  (PyText.endswith "_f" rxn_id = false →
   PyText.endswith "_r" rxn_id = false →
   base_id rxn_id = rxn_id).
Proof.
  destruct (base_id_suffixed rxn_id) as [Hf Hr]. split_and!; [done..|].
  unfold base_id. by intros -> ->.
Qed.

Lemma base_id_of_directed_witness : base_id "R00001" = "R00001".
Proof.
  apply (proj2 (proj2 (base_id_of_directed "R00001"))); reflexivity.
Defined.

(** X17.  [get_rxn_names] never raises; its result has one entry per
    requested identifier, in the order of first request, and the entry
    of an identifier is the text fetched for its base, so the forward
    and the reverse identifier of a reaction get the same text. *)
Theorem rxn_names_by_base (kegg_get : string → option string)
    (rxn_ids : list string) :
  ∃ names,
    get_rxn_names kegg_get rxn_ids = Ok names ∧
    PyDict.keys names = first_seen rxn_ids ∧
    (∀ rxn_id, rxn_id ∈ rxn_ids →
       PyDict.get names rxn_id
         = Some (fetch_equation kegg_get (base_id rxn_id))) ∧
    (∀ base, base +:+ "_f" ∈ rxn_ids → base +:+ "_r" ∈ rxn_ids →
       PyDict.get names (base +:+ "_f") = Some (fetch_equation kegg_get base) ∧
       PyDict.get names (base +:+ "_r") = Some (fetch_equation kegg_get base)).
Proof.
  destruct (names_loop_initial kegg_get rxn_ids) as (st & Hl & _ & Hk & Hv).
  exists (rxn_string_dict st). unfold get_rxn_names. rewrite Hl.
  assert (∀ rxn_id, rxn_id ∈ rxn_ids →
            PyDict.get (rxn_string_dict st) rxn_id
              = Some (fetch_equation kegg_get (base_id rxn_id))) as Hget.
  { intros rxn_id Hin.
    destruct (PyDict.get (rxn_string_dict st) rxn_id) as [v|] eqn:Hg.
    - by rewrite (Hv _ _ Hg).
    - apply dict_get_None in Hg. exfalso. apply Hg.
      unfold PyDict.keys in Hk. rewrite Hk. by apply elem_of_first_seen. }
  split_and!; try done.
  intros base Hf Hr. rewrite (Hget _ Hf), (Hget _ Hr).
  destruct (base_id_suffixed base) as [-> ->]. done.
Qed.

Lemma rxn_names_by_base_witness :
  ∃ names,
    get_rxn_names (λ _, Some "EQUATION    C00001 <=> C00002")
      ["R00001_f"; "R00001_r"] = Ok names ∧
    PyDict.get names "R00001_f" = Some "C00001 <=> C00002" ∧
    PyDict.get names "R00001_r" = Some "C00001 <=> C00002".
Proof.
  destruct (rxn_names_by_base (λ _, Some "EQUATION    C00001 <=> C00002")
              ["R00001_f"; "R00001_r"]) as (names & Hn & _ & _ & Hb).
  exists names. split; [exact Hn|].
  apply (Hb "R00001"); apply (bool_decide_unpack _); by vm_compute.
Defined.

(** X18.  [get_rxn_names] asks the service once for every base
    identifier, in the order in which the bases are first needed, and
    never twice for the same base. *)
Theorem one_fetch_per_base (kegg_get : string → option string)
    (rxn_ids : list string) :
  ∃ st,
    names_loop kegg_get
      {| rxn_string_dict := []; base_eqn_cache := []; fetched := [] |}
      rxn_ids = Ok st ∧
    fetched st = first_seen (base_id <$> rxn_ids) ∧
    NoDup (fetched st).
Proof.
  destruct (names_loop_initial kegg_get rxn_ids) as (st & Hl & Hf & _).
  exists st. split_and!; try done. rewrite Hf. apply first_seen_NoDup.
Qed.

(** ** Splitting: pieces *)

Section pieces.
Implicit Types (sep cur s : string) (c : ascii).

Lemma split_go_nonempty sep k cur s : PyStr.split_go sep k cur s ≠ [].
Proof.
  revert k cur. induction s as [|x s IH]; intros k cur;
    cbn [PyStr.split_go]; [done|].
  destruct k; [|apply IH]. destruct (String.prefix sep (String x s)); [done|].
  apply IH.
Qed.

Lemma split_first sep s : is_Some (PyStr.split sep s !! 0%nat).
Proof.
  unfold PyStr.split. pose proof (split_go_nonempty sep 0 "" s) as Hne.
  destruct (PyStr.split_go sep 0 "" s); [done | by eexists].
Qed.

(** After a separator at the very start there is a second piece. *)
Lemma split_prefix_second c sep s :
  String.prefix (String c sep) s = true →
  is_Some (PyStr.split (String c sep) s !! 1%nat).
Proof.
  intros Hp. unfold PyStr.split. destruct s as [|x s]; [done|].
  cbn [PyStr.split_go]. rewrite Hp.
  pose proof (split_go_nonempty (String c sep)
                (String.length (String c sep) - 1) "" s) as Hne.
  destruct (PyStr.split_go _ _ _ s); [done | by eexists].
Qed.

(** The first piece of a split at one character does not hold that
    character. *)
Lemma split_char_head c s cur :
  c ∉ list_ascii_of_string cur →
  ∃ piece rest,
    PyStr.split_go (String c "") 0 cur s = piece :: rest ∧
    c ∉ list_ascii_of_string piece.
Proof.
  revert cur. induction s as [|x s IH]; intros cur Hcur; simpl.
  - by exists cur, [].
  - destruct (ascii_dec c x) as [->|Hne].
    + destruct s; by eexists _, _.
    + apply IH. rewrite to_list_app. simpl.
      rewrite elem_of_app, list_elem_of_singleton. tauto.
Qed.

Lemma compound_name_total lines :
  ∃ name, compound_name lines = Some name ∧
          ";"%char ∉ list_ascii_of_string name.
Proof.
  induction lines as [|line lines IH]; simpl.
  - exists "Unknown". split; [done|]. by apply (bool_decide_unpack _).
  - destruct (String.prefix "NAME" line) eqn:Hp; [|done].
    destruct (split_prefix_second _ _ _ Hp) as [rest ->]. simpl.
    destruct (split_char_head ";" (PyStr.strip rest) "") as (piece & l & Hs & Hc).
    { apply not_elem_of_nil. }
    exists piece. unfold PyStr.split. by rewrite Hs.
Qed.

End pieces.

(** X19.  [get_cpd_names] gives every requested identifier an entry, in
    the order of first request.  The entry is ["Unknown"] when the fetch
    fails; for a fetched record the parsing of the record never fails,
    and the name it gives holds no semicolon. *)
Theorem cpd_names_total (kegg_get : string → option string)
    (met_ids : list string) :
  PyDict.keys (get_cpd_names kegg_get met_ids) = first_seen met_ids ∧
  (∀ kegg_id, kegg_id ∈ met_ids →
     PyDict.get (get_cpd_names kegg_get met_ids) kegg_id
       = Some (cpd_name kegg_get kegg_id)) ∧
  (∀ kegg_id, kegg_get kegg_id = None → cpd_name kegg_get kegg_id = "Unknown") ∧
  (∀ kegg_id record,
     kegg_get kegg_id = Some record →
     compound_name (PyStr.split PyText.nl record)
       = Some (cpd_name kegg_get kegg_id) ∧
     ";"%char ∉ list_ascii_of_string (cpd_name kegg_get kegg_id)).
Proof.
  assert (∀ ids (d : PyDict.dict string string),
            let d' := fold_left (λ d id, PyDict.set d id (cpd_name kegg_get id))
                        ids d in
            d'.*1 = fold_left add_key ids d.*1 ∧
            ∀ id, PyDict.get d' id =
                  if decide (id ∈ ids) then Some (cpd_name kegg_get id)
                  else PyDict.get d id) as Hfold.
  { induction ids as [|x ids IH]; intros d; cbn [fold_left].
    - split; [done|]. intros id. by rewrite decide_False by apply not_elem_of_nil.
    - destruct (IH (PyDict.set d x (cpd_name kegg_get x))) as [Hk Hg].
      split; [by rewrite Hk, dict_set_add_key|].
      intros id. rewrite Hg, dict_get_set.
      destruct (decide (id ∈ ids)) as [Hin|Hnin].
      + rewrite decide_True; [done | by right].
      + destruct (decide (x = id)) as [->|Hne].
        * rewrite decide_True; [done | by left].
        * rewrite decide_False; [done|].
          intros [?|?]%elem_of_cons; congruence. }
  destruct (Hfold met_ids []) as [Hk Hg]. split_and!.
  - unfold PyDict.keys, get_cpd_names. rewrite Hk. simpl.
    by rewrite first_seen_fold.
  - intros id Hin. unfold get_cpd_names. by rewrite Hg, decide_True.
  - intros id Hnone. unfold cpd_name. by rewrite Hnone.
  - intros id record Hsome. unfold cpd_name. rewrite Hsome.
    destruct (compound_name_total (PyStr.split PyText.nl record))
      as (name & -> & Hc). done.
Qed.

Lemma cpd_names_total_witness :
  ";"%char ∉ list_ascii_of_string
    (cpd_name (λ _, Some "ENTRY  C00001
NAME        H2O;
            Water
FORMULA     H2O") "C00001").
Proof.
  apply (proj2 (proj2 (proj2 (proj2 (cpd_names_total
           (λ _, Some "ENTRY  C00001
NAME        H2O;
            Water
FORMULA     H2O") []))) "C00001" _ eq_refl)).
Defined.

(** ** Stripping and scanning *)

Section scanning.
Implicit Types (old new sep cur s body : string) (c : ascii).

Lemma str_app_cons c (a b : string) : String c a +:+ b = String c (a +:+ b).
Proof. done. Qed.

Lemma str_app_nil_r s : s +:+ "" = s.
Proof.
  induction s as [|c s IH]; [done|]. by rewrite str_app_cons, IH.
Qed.

Lemma str_app_assoc (a b d : string) : (a +:+ b) +:+ d = a +:+ (b +:+ d).
Proof.
  induction a as [|c a IH]; [done|]. by rewrite !str_app_cons, IH.
Qed.

Lemma prefix_nil s : String.prefix "" s = true.
Proof. by destruct s. Qed.

Lemma prefix_app (a b : string) : String.prefix a (a +:+ b) = true.
Proof.
  induction a as [|c a IH]; [apply prefix_nil|].
  rewrite str_app_cons. simpl. by destruct (ascii_dec c c).
Qed.

Lemma lstrip_head s :
  PyStr.lstrip s = "" ∨
  ∃ c t, PyStr.lstrip s = String c t ∧ PyStr.isspace c = false.
Proof.
  induction s as [|c s IH]; simpl; [by left|].
  destruct (PyStr.isspace c) eqn:Hc; [done|]. right. by exists c, s.
Qed.

Lemma rstrip_head c s :
  PyStr.isspace c = false → ∃ r, PyStr.rstrip (String c s) = String c r.
Proof.
  intros Hc. cbn [PyStr.rstrip]. rewrite Hc.
  destruct (PyStr.rstrip s); by eexists.
Qed.

Lemma rstrip_idem s : PyStr.rstrip (PyStr.rstrip s) = PyStr.rstrip s.
Proof.
  induction s as [|c s IH]; [done|]. cbn [PyStr.rstrip].
  destruct (PyStr.rstrip s) as [|c' r] eqn:Hr.
  - destruct (PyStr.isspace c) eqn:Hc; [done|]. simpl. by rewrite Hc.
  - cbn [PyStr.rstrip]. cbn [PyStr.rstrip] in IH.
    destruct (PyStr.rstrip r) as [|c'' r'].
    + destruct (PyStr.isspace c'); [done|]. by rewrite IH.
    + by rewrite IH.
Qed.

Lemma strip_idem s : PyStr.strip (PyStr.strip s) = PyStr.strip s.
Proof.
  unfold PyStr.strip. destruct (lstrip_head s) as [->|(c & t & -> & Hc)];
    [done|].
  destruct (rstrip_head c t Hc) as [r Hr]. rewrite Hr. simpl PyStr.lstrip.
  rewrite Hc, <- Hr. apply rstrip_idem.
Qed.

(** Passing over the rest of a match. *)
Lemma split_go_skip sep (t : string) cur s :
  PyStr.split_go sep (String.length t) cur (t +:+ s)
    = PyStr.split_go sep 0 cur s.
Proof.
  induction t as [|x t IH]; [done|]. rewrite str_app_cons.
  cbn [String.length PyStr.split_go]. apply IH.
Qed.

Lemma replace_go_skip old new (t : string) s :
  PyText.replace_go old new (String.length t) (t +:+ s)
    = PyText.replace_go old new 0 s.
Proof.
  induction t as [|x t IH]; [done|]. rewrite str_app_cons.
  cbn [String.length PyText.replace_go]. apply IH.
Qed.

Lemma split_without sep s cur :
  PyStr.contains sep s = false → PyStr.split_go sep 0 cur s = [cur +:+ s].
Proof.
  revert cur. induction s as [|c s IH]; intros cur.
  - intros _. simpl. by rewrite str_app_nil_r.
  - cbn [PyStr.contains PyStr.split_go].
    intros [Hp Hc]%orb_false_elim. rewrite Hp, (IH _ Hc).
    by rewrite str_app_assoc.
Qed.

Lemma replace_without old new s :
  PyStr.contains old s = false → PyText.replace_go old new 0 s = s.
Proof.
  induction s as [|c s IH]; [done|].
  cbn [PyStr.contains PyText.replace_go].
  intros [Hp Hc]%orb_false_elim. by rewrite Hp, (IH Hc).
Qed.

End scanning.

(** ** get_equations, get_reactions *)

Lemma split_at_start (c : ascii) (sep' body : string) :
  PyStr.split (String c sep') (String c sep' +:+ body)
    = "" :: PyStr.split (String c sep') body.
Proof.
  unfold PyStr.split. rewrite str_app_cons. cbn [PyStr.split_go].
  rewrite <- str_app_cons, prefix_app. f_equal.
  replace (String.length (String c sep') - 1)%nat with (String.length sep')
    by (cbn [String.length]; lia).
  apply split_go_skip.
Qed.

Lemma replace_at_start (c : ascii) (old' new body : string) :
  PyText.replace (String c old') new (String c old' +:+ body)
    = new +:+ PyText.replace (String c old') new body.
Proof.
  unfold PyText.replace. rewrite str_app_cons. cbn [PyText.replace_go].
  rewrite <- str_app_cons, prefix_app. f_equal.
  replace (String.length (String c old') - 1)%nat with (String.length old')
    by (cbn [String.length]; lia).
  apply replace_go_skip.
Qed.

Lemma equation_line_stripped (lines : list string) (eqn : string) :
  equation_line lines = Some eqn → PyStr.strip eqn = eqn.
Proof.
  induction lines as [|line lines IH]; simpl; [done|].
  destruct (String.prefix "EQUATION" line); [|done].
  intros [= <-]. apply strip_idem.
Qed.

Lemma equation_line_None (lines : list string) :
  equation_line lines = None ↔
  Forall (λ line, String.prefix "EQUATION" line = false) lines.
Proof.
  induction lines as [|line lines IH]; simpl; [by split|].
  rewrite Forall_cons. destruct (String.prefix "EQUATION" line).
  - split; [done | by intros [? _]].
  - rewrite IH. tauto.
Qed.

Lemma equation_line_first (pre post : list string) (line : string) :
  Forall (λ line, String.prefix "EQUATION" line = false) pre →
  String.prefix "EQUATION" line = true →
  equation_line (pre ++ line :: post)
    = Some (PyStr.strip (PyText.replace "EQUATION" "" line)) ∧
  record_equation (pre ++ line :: post)
    = PyStr.strip <$> PyStr.split "EQUATION" line !! 1%nat.
Proof.
  intros Hpre Hline. induction Hpre as [|l pre Hl _ IH]; simpl.
  - by rewrite Hline.
  - by rewrite Hl.
Qed.

(** X20.  Outcome of [get_equations]: there is no result exactly when
    the fetch fails or no line of the entry starts with [EQUATION]; a
    result has no whitespace at either end. *)
Theorem get_equations_outcome (kegg_get : string → option string)
    (rxn_id : string) :
  (get_equations kegg_get rxn_id = None ↔
   kegg_get rxn_id = None ∨
   ∃ entry, kegg_get rxn_id = Some entry ∧
            Forall (λ line, String.prefix "EQUATION" line = false)
              (PyStr.split PyText.nl entry)) ∧
  (∀ eqn, get_equations kegg_get rxn_id = Some eqn → PyStr.strip eqn = eqn).
Proof.
  unfold get_equations. destruct (kegg_get rxn_id) as [entry|]; split.
  - rewrite equation_line_None. split.
    + intros ?. right. by exists entry.
    + by intros [?|(entry' & [= <-] & ?)].
  - apply equation_line_stripped.
  - split; [by left | done].
  - done.
Qed.

Lemma get_equations_outcome_witness :
  PyStr.strip "C00001 <=> C00002" = "C00001 <=> C00002".
Proof.
  apply (proj2 (get_equations_outcome
                  (λ _, Some "EQUATION    C00001 <=> C00002  ") "R00001")).
  reflexivity.
Defined.

(** X21.  The two readers of an entry agree: when the first line that
    starts with [EQUATION] holds the word only once, [get_equations]
    (which removes the word) and [get_rxn_names] (which splits at it)
    both give the rest of that line without the whitespace around it. *)
Theorem equation_text_agrees (kegg_get : string → option string)
    (rxn_id record body : string) (pre post : list string) :
  kegg_get rxn_id = Some record →
  PyStr.split PyText.nl record = pre ++ ("EQUATION" +:+ body) :: post →
  Forall (λ line, String.prefix "EQUATION" line = false) pre →
  PyStr.contains "EQUATION" body = false →
  get_equations kegg_get rxn_id = Some (PyStr.strip body) ∧
  fetch_equation kegg_get rxn_id = PyStr.strip body.
Proof.
  intros Hget Hlines Hpre Hbody.
  unfold get_equations, fetch_equation. rewrite Hget, Hlines.
  destruct (equation_line_first pre post ("EQUATION" +:+ body) Hpre)
    as [-> ->]; [apply (prefix_app "EQUATION")|].
  rewrite (replace_at_start "E" "QUATION"), (split_at_start "E" "QUATION").
  unfold PyText.replace, PyStr.split.
  rewrite replace_without, split_without by done. done.
Qed.

Lemma equation_text_agrees_witness :
  get_equations
    (λ _, Some "ENTRY       R00001
EQUATION    C00001 <=> C00002
///") "R00001" = Some (PyStr.strip "    C00001 <=> C00002").
Proof.
  apply (equation_text_agrees
           (λ _, Some "ENTRY       R00001
EQUATION    C00001 <=> C00002
///") "R00001" "ENTRY       R00001
EQUATION    C00001 <=> C00002
///" "    C00001 <=> C00002" ["ENTRY       R00001"] ["///"] eq_refl).
  - reflexivity.
  - by repeat constructor.
  - reflexivity.
Defined.

(** When the word occurs again in the line the two readers differ. *)
Example equation_text_differs :
  get_equations (λ _, Some "EQUATION C00001 EQUATION C00002") "R00001"
    = Some "C00001  C00002" ∧
  fetch_equation (λ _, Some "EQUATION C00001 EQUATION C00002") "R00001"
    = "C00001".
Proof. by vm_compute. Qed.

(** X22.  [get_reactions] never returns an empty list: a response that
    is blank, as for a pathway without reactions, makes the subscript
    fail with [IndexError], and any list it returns has one identifier
    per line of the stripped response. *)
Theorem get_reactions_never_empty (kegg_link : string → string → string)
    (pathway_id : string) :
  let response := kegg_link "reaction" ("path:" +:+ pathway_id) in
  (PyStr.strip response = "" → get_reactions kegg_link pathway_id = None) ∧
  (∀ ids, get_reactions kegg_link pathway_id = Some ids →
          ids ≠ [] ∧
          length ids = length (PyStr.split PyText.nl (PyStr.strip response))).
Proof.
  unfold get_reactions. split.
  - by intros ->.
  - intros ids Hids. apply mapM_Some_1, Forall2_length in Hids.
    split; [|done]. intros ->.
    by apply (split_go_nonempty PyText.nl 0 "" (PyStr.strip
      (kegg_link "reaction" ("path:" +:+ pathway_id)))), nil_length_inv.
Qed.

Lemma get_reactions_never_empty_witness :
  get_reactions (λ _ _, PyText.nl) "map00000" = None.
Proof.
  apply (proj1 (get_reactions_never_empty (λ _ _, PyText.nl) "map00000")).
  reflexivity.
Defined.

(** ** get_reactions on a well-formed response *)

Section link.
Implicit Types (s t a b cur : string) (c x : ascii).

Lemma split_char_none c a cur :
  c ∉ list_ascii_of_string a →
  PyStr.split_go (String c "") 0 cur a = [cur +:+ a].
Proof.
  revert cur. induction a as [|x a IH]; intros cur Hc.
  - simpl. by rewrite str_app_nil_r.
  - simpl in Hc. apply not_elem_of_cons in Hc as [Hx Ha].
    cbn [PyStr.split_go String.prefix].
    destruct (ascii_dec c x) as [->|_]; [done|].
    rewrite (IH _ Ha). by rewrite str_app_assoc.
Qed.

Lemma split_char_app c a b cur :
  c ∉ list_ascii_of_string a →
  PyStr.split_go (String c "") 0 cur (a +:+ String c b)
    = (cur +:+ a) :: PyStr.split_go (String c "") 0 "" b.
Proof.
  revert cur. induction a as [|x a IH]; intros cur Hc.
  - change ("" +:+ String c b) with (String c b).
    cbn [PyStr.split_go String.prefix].
    destruct (ascii_dec c c); [|done]. rewrite prefix_nil.
    by rewrite str_app_nil_r.
  - simpl in Hc. apply not_elem_of_cons in Hc as [Hx Ha].
    rewrite str_app_cons. cbn [PyStr.split_go String.prefix].
    destruct (ascii_dec c x) as [->|_]; [done|].
    rewrite (IH _ Ha). by rewrite str_app_assoc.
Qed.

Lemma rstrip_snoc_space s c :
  PyStr.isspace c = true → PyStr.rstrip (s +:+ String c "") = PyStr.rstrip s.
Proof.
  intros Hc. induction s as [|x s IH]; [simpl; by rewrite Hc|].
  rewrite str_app_cons. cbn [PyStr.rstrip]. by rewrite IH.
Qed.

Lemma rstrip_ends_nonspace s : ends_nonspace s → PyStr.rstrip s = s.
Proof.
  intros (t & x & -> & Hx). induction t as [|y t IH]; [simpl; by rewrite Hx|].
  rewrite str_app_cons. cbn [PyStr.rstrip]. rewrite IH.
  by destruct t.
Qed.

Lemma ends_nonspace_app a b : ends_nonspace b → ends_nonspace (a +:+ b).
Proof.
  intros (t & x & -> & Hx). exists (a +:+ t), x.
  by rewrite str_app_assoc.
Qed.

Lemma snoc_or_nil s : s = "" ∨ ∃ t x, s = t +:+ String x "".
Proof.
  induction s as [|c s [->|(t & x & ->)]]; [by left| |]; right.
  - by exists "", c.
  - by exists (String c t), x.
Qed.

Lemma plain_ends rid : plain_id rid → ends_nonspace (":" +:+ rid).
Proof.
  intros Hp. destruct (snoc_or_nil rid) as [->|(t & x & ->)].
  - by exists "", ":"%char.
  - exists (":" +:+ t), x. split; [done|].
    apply Hp. rewrite to_list_app, elem_of_app. right. by left.
Qed.

Lemma link_line_ends pathway_id rid :
  plain_id rid → ends_nonspace (link_line pathway_id rid).
Proof.
  intros Hp. unfold link_line.
  do 3 apply ends_nonspace_app. apply (ends_nonspace_app "rn"), plain_ends, Hp.
Qed.

Lemma concat_ends (lines : list string) :
  lines ≠ [] → Forall ends_nonspace lines →
  ends_nonspace (String.concat PyText.nl lines).
Proof.
  induction lines as [|l lines IH]; [done|]. intros _ [Hl Hls]%Forall_cons.
  destruct lines as [|l' lines]; [done|].
  change (String.concat PyText.nl (l :: l' :: lines))
    with (l +:+ PyText.nl +:+ String.concat PyText.nl (l' :: lines)).
  do 2 apply ends_nonspace_app. by apply IH.
Qed.

Lemma split_lines (lines : list string) :
  lines ≠ [] →
  Forall (λ l, "010"%char ∉ list_ascii_of_string l) lines →
  PyStr.split PyText.nl (String.concat PyText.nl lines) = lines.
Proof.
  unfold PyStr.split, PyText.nl.
  induction lines as [|l lines IH]; [done|]. intros _ [Hl Hls]%Forall_cons.
  destruct lines as [|l' lines].
  - simpl. by rewrite split_char_none.
  - change (String.concat (String "010" "") (l :: l' :: lines))
      with (l +:+ String "010" (String.concat (String "010" "") (l' :: lines))).
    rewrite split_char_app by done. by rewrite IH.
Qed.

Lemma link_line_chars pathway_id rid c :
  c ∈ list_ascii_of_string (link_line pathway_id rid) →
  c ∈ list_ascii_of_string "path:rn:" ∨ c = "009"%char ∨
  c ∈ list_ascii_of_string pathway_id ∨ c ∈ list_ascii_of_string rid.
Proof.
  unfold link_line, PyText.tab. rewrite !to_list_app, !elem_of_app.
  simpl. rewrite !elem_of_cons, elem_of_nil. tauto.
Qed.

Lemma reaction_id_of_link_line pathway_id rid :
  "009"%char ∉ list_ascii_of_string pathway_id →
  plain_id rid →
  reaction_id_of_line (link_line pathway_id rid) = Some rid.
Proof.
  intros Hp Hr. unfold reaction_id_of_line, link_line, PyStr.split, PyText.tab.
  rewrite <- str_app_assoc.
  change (String "009" "" +:+ "rn:" +:+ rid) with (String "009" ("rn:" +:+ rid)).
  rewrite split_char_app.
  2: { rewrite to_list_app, elem_of_app. intros [Hin|?]; [|done].
       by apply (bool_decide_pack _) in Hin. }
  rewrite split_char_none.
  2: { rewrite to_list_app, elem_of_app. intros [Hin|Hin].
       - by apply (bool_decide_pack _) in Hin.
       - by apply Hr in Hin as [? _]. }
  change (PyStr.split_go (String ":" "") 0 "" ("rn" +:+ String ":" rid)
            !! 1%nat = Some rid).
  rewrite split_char_app by (intros Hin; by apply (bool_decide_pack _) in Hin).
  rewrite split_char_none; [done|]. intros Hin. by apply Hr in Hin as [_ ?].
Qed.

Lemma plain_id_check s :
  forallb (λ c, negb (PyStr.isspace c) && negb (Ascii.eqb c ":"))
    (list_ascii_of_string s) = true →
  plain_id s.
Proof.
  intros Hall c Hc. rewrite forallb_forall in Hall.
  apply list_elem_of_In, Hall in Hc.
  apply andb_true_iff in Hc as [Hs Hcolon].
  apply negb_true_iff in Hs, Hcolon. split; [done|].
  intros ->. by rewrite Ascii.eqb_refl in Hcolon.
Qed.

End link.

(** X23.  [get_reactions] reads a well-formed link response back: when
    the service answers with one line [path:<pathway>TAB rn:<id>] per
    reaction, each ended by a line feed, for a non-empty list of
    identifiers without whitespace or colon and a pathway identifier
    without tab or line feed, the result is that list of identifiers. *)
Theorem get_reactions_reads_response (kegg_link : string → string → string)
    (pathway_id : string) (rids : list string) :
  rids ≠ [] →
  Forall plain_id rids →
  "009"%char ∉ list_ascii_of_string pathway_id →
  "010"%char ∉ list_ascii_of_string pathway_id →
  kegg_link "reaction" ("path:" +:+ pathway_id)
    = link_response pathway_id rids →
  get_reactions kegg_link pathway_id = Some rids.
Proof.
  intros Hne Hplain Htab Hnl Hresp. unfold get_reactions. rewrite Hresp.
  assert (link_line pathway_id <$> rids ≠ []) as Hne' by by destruct rids.
  assert (PyStr.strip (link_response pathway_id rids)
            = String.concat PyText.nl (link_line pathway_id <$> rids)) as ->.
  { unfold PyStr.strip, link_response.
    assert (PyStr.lstrip
              (String.concat PyText.nl (link_line pathway_id <$> rids)
                 +:+ PyText.nl)
            = String.concat PyText.nl (link_line pathway_id <$> rids)
                +:+ PyText.nl) as ->.
    { destruct rids as [|r [|r' rs]]; [done|..]; by cbn. }
    rewrite (rstrip_snoc_space _ "010") by done. apply rstrip_ends_nonspace, concat_ends;
      [done|].
    apply Forall_fmap. eapply Forall_impl; [exact Hplain|].
    intros rid Hr. by apply link_line_ends. }
  rewrite split_lines; [|done|].
  2: { apply Forall_fmap. eapply Forall_impl; [exact Hplain|].
       intros rid Hr [Hin|[?|[?|Hin]]]%link_line_chars; try done.
       - by apply (bool_decide_pack _) in Hin.
       - by apply Hr in Hin as [? _]. }
  apply mapM_Some_2. apply Forall2_fmap_l, Forall_Forall2_diag.
  eapply Forall_impl; [exact Hplain|].
  intros rid Hr. by apply reaction_id_of_link_line.
Qed.

Lemma get_reactions_reads_response_witness :
  get_reactions (λ _ _, link_response "map01100" ["R00001"; "R00002"])
    "map01100" = Some ["R00001"; "R00002"].
Proof.
  apply get_reactions_reads_response.
  - discriminate.
  - apply Forall_cons_2; [|apply Forall_cons_2; [|apply Forall_nil_2]];
      by apply plain_id_check.
  - apply (bool_decide_unpack _). by vm_compute.
  - apply (bool_decide_unpack _). by vm_compute.
  - reflexivity.
Defined.

(** ** Repeated reaction identifiers *)

Section repeated.
Context (get_equations : string → option string).
Implicit Types (st : build_state) (ids : list string).

Lemma split_directions_idem st st' rxn_id eqn :
  split_directions st rxn_id eqn = Ok st' →
  split_directions st' rxn_id eqn = Ok st'.
Proof.
  unfold split_directions.
  destruct (parse_equation eqn) as [[ms cs]|]; simpl; [|done].
  pose proof (directed_ids_differ rxn_id) as Hfr.
  intros [= <-]. f_equal.
  destruct (PyStr.contains "<=>" eqn), ms as [|m ms']; simpl.
  - rewrite dict_set_same by apply dict_get_set_eq. f_equal.
    by rewrite union_twice.
  - rewrite (dict_set_same (PyDict.set (PyDict.set _ _ _) _ _)
               (rxn_id +:+ "_f")).
    2: { by rewrite dict_get_set_ne, dict_get_set_eq. }
    rewrite dict_set_same by apply dict_get_set_eq. f_equal.
    by rewrite !union_twice.
  - by destruct st.
  - rewrite dict_set_same by apply dict_get_set_eq. f_equal.
    by rewrite union_twice.
Qed.

(** One pass leaves the records under other keys alone and only adds
    metabolites. *)
Lemma split_directions_other st st' rxn_id eqn :
  split_directions st rxn_id eqn = Ok st' →
  all_metabolites st ⊆ all_metabolites st' ∧
  ∀ k, k ≠ rxn_id +:+ "_f" → k ≠ rxn_id +:+ "_r" →
       PyDict.get (reaction_stoich st') k = PyDict.get (reaction_stoich st) k.
Proof.
  unfold split_directions.
  destruct (parse_equation eqn) as [[ms cs]|]; simpl; [|done].
  intros [= <-].
  destruct (PyStr.contains "<=>" eqn), ms as [|m ms']; simpl; split;
    try done; try (intros k Hf Hr; by rewrite ?dict_get_set_ne by done).
  - apply union_subseteq_l.
  - etrans; [|apply union_subseteq_l]. apply union_subseteq_l.
  - apply union_subseteq_l.
Qed.

Lemma split_directions_recorded st st' rxn_id eqn :
  split_directions st rxn_id eqn = Ok st' → recorded st' rxn_id eqn.
Proof.
  unfold split_directions.
  destruct (parse_equation eqn) as [[ms cs]|] eqn:Hp; simpl; [|done].
  pose proof (directed_ids_differ rxn_id) as Hfr.
  intros [= <-]. exists ms, cs. split; [done|].
  destruct (PyStr.contains "<=>" eqn), ms as [|m ms']; simpl;
    split_and!; try done;
    first [ apply union_subseteq_r
          | intros _; apply dict_get_set_eq
          | intros _; by rewrite dict_get_set_ne, dict_get_set_eq ].
Qed.

Lemma recorded_fixed st rxn_id eqn :
  recorded st rxn_id eqn → split_directions st rxn_id eqn = Ok st.
Proof.
  intros (ms & cs & Hp & Hsub & Hf & Hr). unfold split_directions.
  rewrite Hp. simpl. f_equal. destruct st as [rs mets]. simpl in *.
  assert (mets ∪ list_to_set ms = mets) as Hm.
  { rewrite (comm_L (∪)). by apply subseteq_union_1_L. }
  destruct (PyStr.contains "<=>" eqn), ms as [|m ms'];
    cbn [reaction_stoich all_metabolites].
  - rewrite dict_set_same by by apply Hr. by rewrite Hm.
  - rewrite (dict_set_same rs (rxn_id +:+ "_f")) by by apply Hf.
    rewrite dict_set_same by by apply Hr. by rewrite !Hm.
  - done.
  - rewrite dict_set_same by by apply Hf. by rewrite Hm.
Qed.

Lemma recorded_other st st' rxn_id eqn rxn_id' eqn' :
  recorded st rxn_id eqn →
  rxn_id' ≠ rxn_id →
  split_directions st rxn_id' eqn' = Ok st' →
  recorded st' rxn_id eqn.
Proof.
  intros (ms & cs & Hp & Hsub & Hf & Hr) Hne
    [Hmets Hget]%split_directions_other.
  assert (rxn_id +:+ "_f" ≠ rxn_id' +:+ "_f") as H1.
  { by intros ?%suffix_inj. }
  assert (rxn_id +:+ "_r" ≠ rxn_id' +:+ "_r") as H2.
  { by intros ?%suffix_inj. }
  pose proof (suffix_differ rxn_id rxn_id') as H3.
  assert (rxn_id +:+ "_r" ≠ rxn_id' +:+ "_f") as H4.
  { intros Heq. by apply (suffix_differ rxn_id' rxn_id). }
  exists ms, cs. split_and!; [done|by etrans|..].
  - intros Hms. rewrite Hget by done. by apply Hf.
  - intros Hrev. rewrite Hget by done. by apply Hr.
Qed.

Lemma process_reactions_recorded ids st st' rxn_id eqn :
  get_equations rxn_id = Some eqn →
  recorded st rxn_id eqn →
  process_reactions get_equations st ids = Ok st' →
  recorded st' rxn_id eqn.
Proof.
  intros Hg. revert st. induction ids as [|r ids IH]; intros st Hrec; simpl.
  - by intros [= <-].
  - destruct (get_equations r) as [[|c e]|] eqn:Hr; try by apply IH.
    destruct (split_directions st r (String c e)) as [st1|] eqn:Hs; simpl;
      [|done].
    apply IH. destruct (decide (r = rxn_id)) as [->|Hne].
    + assert (eqn = String c e) as -> by congruence.
      by eapply split_directions_recorded.
    + by eapply recorded_other.
Qed.

Lemma process_reactions_repeat ids st st' rxn_id :
  process_reactions get_equations st ids = Ok st' →
  rxn_id ∈ ids →
  process_reactions get_equations st' [rxn_id] = Ok st'.
Proof.
  intros Hpr Hin. simpl.
  destruct (get_equations rxn_id) as [[|c e]|] eqn:Hg; try done.
  rewrite recorded_fixed; [done|].
  revert st Hpr. induction ids as [|r ids IH]; intros st; simpl.
  { by apply elem_of_nil in Hin. }
  destruct (decide (r = rxn_id)) as [->|Hne].
  - rewrite Hg.
    destruct (split_directions st rxn_id (String c e)) as [st1|] eqn:Hs;
      simpl; [|done].
    apply process_reactions_recorded; [done|].
    by eapply split_directions_recorded.
  - apply elem_of_cons in Hin as [?|Hin]; [done|].
    destruct (get_equations r) as [[|c' e']|]; try by apply IH.
    destruct (split_directions st r (String c' e')) as [st1|]; simpl; [|done].
    by apply IH.
Qed.

Lemma process_reactions_app ids1 ids2 st :
  process_reactions get_equations st (ids1 ++ ids2)
    = st' ← process_reactions get_equations st ids1;
      process_reactions get_equations st' ids2.
Proof.
  revert st. induction ids1 as [|r ids1 IH]; intros st; simpl; [done|].
  destruct (get_equations r) as [[|c e]|]; try apply IH.
  destruct (split_directions st r (String c e)) as [st1|]; simpl; [|done].
  apply IH.
Qed.

Lemma process_reactions_first_seen ids st :
  process_reactions get_equations st ids
    = process_reactions get_equations st (first_seen ids).
Proof.
  induction ids as [|r ids IH] using rev_ind; [done|].
  rewrite first_seen_snoc, process_reactions_app. unfold add_key.
  case_decide as Hin.
  - rewrite <- IH.
    destruct (process_reactions get_equations st ids) as [st'|] eqn:Hpr;
      [|done].
    change (process_reactions get_equations st' [r] = Ok st').
    eapply process_reactions_repeat; [done|].
    by apply elem_of_first_seen.
  - by rewrite process_reactions_app, IH.
Qed.

End repeated.

(** X9.  A repeated reaction identifier adds nothing, as long as the
    equation fetched for it is the same each time.  A pass over a
    reaction directly after a pass with the same equation changes
    nothing; after a run of the loop over a list, one more pass over any
    reaction of the list leaves the state as it is: the records, their
    order and the set of metabolites; so the loop, and with it the
    assembled matrix, is the same for a list and for the list without
    its repetitions, every identifier at its first place. *)
Theorem reprocessing_changes_nothing (get_equations : string → option string)
    (reaction_ids : list string) :
  (∀ st st' rxn_id eqn,
     split_directions st rxn_id eqn = Ok st' →
     split_directions st' rxn_id eqn = Ok st') ∧
  (∀ st st' rxn_id,
     process_reactions get_equations st reaction_ids = Ok st' →
     rxn_id ∈ reaction_ids →
     process_reactions get_equations st' [rxn_id] = Ok st' ∧
     process_reactions get_equations st (reaction_ids ++ [rxn_id]) = Ok st') ∧
  (∀ st, process_reactions get_equations st reaction_ids
           = process_reactions get_equations st (first_seen reaction_ids)) ∧
  build_stoich_matrix get_equations reaction_ids
    = build_stoich_matrix get_equations (first_seen reaction_ids).
Proof.
  split_and!.
  - intros st st' rxn_id eqn. apply split_directions_idem.
  - intros st st' rxn_id Hpr Hin.
    pose proof (process_reactions_repeat _ _ _ _ _ Hpr Hin) as Hrep.
    split; [done|]. by rewrite process_reactions_app, Hpr.
  - intros st. apply process_reactions_first_seen.
  - unfold build_stoich_matrix. by rewrite process_reactions_first_seen.
Qed.

Lemma reprocessing_changes_nothing_witness :
  (∃ st',
     process_reactions two_reactions initial_state ["R00001"; "R00002"]
       = Ok st' ∧
     process_reactions two_reactions initial_state
       ["R00001"; "R00002"; "R00001"] = Ok st') ∧
  build_stoich_matrix two_reactions ["R00001"; "R00002"; "R00001"; "R00002"]
    = build_stoich_matrix two_reactions ["R00001"; "R00002"].
Proof.
  split.
  - eexists. split; [reflexivity|].
    apply (proj1 (proj2 (reprocessing_changes_nothing two_reactions
                           ["R00001"; "R00002"]))
             initial_state _ "R00001"); [reflexivity|].
    apply (bool_decide_unpack _). by vm_compute.
  - exact (proj2 (proj2 (proj2 (reprocessing_changes_nothing two_reactions
             ["R00001"; "R00002"; "R00001"; "R00002"])))).
Defined.
